(** * server.py: a task list kept in memory, mirrored to a file, served over HTTP

    A shallow embedding of [TaskManager] and [TaskHandler].

    Python values are the values [json.load] produces: [None], booleans,
    integers, strings, lists and dictionaries.  A string is kept as the
    bytes of its UTF-8 encoding (for the request path, which [http.server]
    decodes as ISO-8859-1, one byte is one character).  A dictionary is an
    association list in insertion order.

    What the embedding leaves out is marked where it is left out: numbers
    with a fraction or an exponent, [NaN] and [Infinity] (Python floats),
    and [\u] escapes of lone surrogates, are answered by [Beyond] in the
    parser and by [Unmodelled] in the operations that parse.  The depth
    limit of the interpreter's stack and its limit on the decimal length of
    integers are not modelled: integers are unbounded. *)

From Stdlib Require Import ZArith NArith List String Ascii Bool Lia.
Import ListNotations.

Local Open Scope string_scope.
Local Open Scope Z_scope.

(** ** Python values *)

Unset Elimination Schemes.

Inductive json : Type :=
| JNull
| JBool (b : bool)
| JInt (n : Z)
| JStr (s : string)
| JArr (items : list json)
| JObj (members : list (string * json)).

Set Elimination Schemes.

(** The exceptions the program can meet. *)
Inductive exn : Type :=
| KeyError
| TypeError
| AttributeError
| UnicodeDecodeError.

(** The result of running a piece of the program: a value, an exception
    that leaves the running function, or an input outside the embedding. *)
Inductive outcome (A : Type) : Type :=
| Ok (a : A)
| Raise (e : exn)
| Unmodelled.

Arguments Ok {A} a.
Arguments Raise {A} e.
Arguments Unmodelled {A}.

Definition bind {A B : Type} (m : outcome A) (k : A -> outcome B) : outcome B :=
  match m with
  | Ok a => k a
  | Raise e => Raise e
  | Unmodelled => Unmodelled
  end.

Notation "x <- m ;; k" := (bind m (fun x => k))
  (at level 61, m at next level, right associativity).

Module Py.

(** [d.get(k)] on the association list of a dictionary. *)
Fixpoint dict_get (k : string) (d : list (string * json)) : option json :=
  match d with
  | [] => None
  | (k', v) :: d' => if String.eqb k k' then Some v else dict_get k d'
  end.

(** [d[k] = v]: the value of an existing key is replaced where it stands, a
    new key goes to the end. *)
Fixpoint dict_set (k : string) (v : json) (d : list (string * json))
  : list (string * json) :=
  match d with
  | [] => [(k, v)]
  | (k', v') :: d' =>
      if String.eqb k k' then (k', v) :: d' else (k', v') :: dict_set k v d'
  end.

(** [bool(v)]. *)
Definition truthy (v : json) : bool :=
  match v with
  | JNull => false
  | JBool b => b
  | JInt n => negb (n =? 0)
  | JStr s => negb (String.eqb s EmptyString)
  | JArr l => match l with [] => false | _ => true end
  | JObj d => match d with [] => false | _ => true end
  end.

(** [bool] is a subclass of [int]: [True] counts as 1 and [False] as 0. *)
Definition num (v : json) : option Z :=
  match v with
  | JBool b => Some (Z.b2z b)
  | JInt n => Some n
  | _ => None
  end.

(** [a == b]: numbers by value, lists item by item, dictionaries key by key
    whatever the order; never raises on these values. *)
Fixpoint eq (a b : json) {struct a} : bool :=
  match a, b with
  | JNull, JNull => true
  | JBool x, JBool y => Bool.eqb x y
  | JBool x, JInt y => Z.b2z x =? y
  | JInt x, JBool y => x =? Z.b2z y
  | JInt x, JInt y => x =? y
  | JStr x, JStr y => String.eqb x y
  | JArr xs, JArr ys =>
      (fix items (xs ys : list json) {struct xs} : bool :=
         match xs, ys with
         | [], [] => true
         | x :: xs', y :: ys' => eq x y && items xs' ys'
         | _, _ => false
         end) xs ys
  | JObj xs, JObj ys =>
      Nat.eqb (List.length xs) (List.length ys) &&
      (fix members (xs : list (string * json)) {struct xs} : bool :=
         match xs with
         | [] => true
         | (k, x) :: xs' =>
             match dict_get k ys with
             | Some y => eq x y
             | None => false
             end && members xs'
         end) xs
  | _, _ => false
  end.

(** [a > b]: numbers with numbers, strings with strings, lists with lists
    (decided at the first pair of items that are not equal, else by length);
    anything else is a [TypeError]. *)
Fixpoint gt (a b : json) {struct a} : outcome bool :=
  match a, b with
  | JStr x, JStr y => Ok (String.ltb y x)
  | JArr xs, JArr ys =>
      (fix items (xs ys : list json) {struct xs} : outcome bool :=
         match xs, ys with
         | [], _ => Ok false
         | _ :: _, [] => Ok true
         | x :: xs', y :: ys' => if eq x y then items xs' ys' else gt x y
         end) xs ys
  | _, _ =>
      match num a, num b with
      | Some x, Some y => Ok (x >? y)
      | _, _ => Raise TypeError
      end
  end.

(** [v[k]] with a string key [k]. *)
Definition getitem (v : json) (k : string) : outcome json :=
  match v with
  | JObj d =>
      match dict_get k d with
      | Some x => Ok x
      | None => Raise KeyError
      end
  | _ => Raise TypeError
  end.

(** [v[k] = x] with a string key [k]. *)
Definition setitem (v : json) (k : string) (x : json) : outcome json :=
  match v with
  | JObj d => Ok (JObj (dict_set k x d))
  | _ => Raise TypeError
  end.

(** [v.get(k)]: only a dictionary has the method. *)
Definition get (v : json) (k : string) : outcome json :=
  match v with
  | JObj d =>
      match dict_get k d with
      | Some x => Ok x
      | None => Ok JNull
      end
  | _ => Raise AttributeError
  end.

(** A byte 10xxxxxx continues the character begun before it. *)
Definition continuation (c : ascii) : bool :=
  match c with
  | Ascii _ _ _ _ _ _ false true => true
  | _ => false
  end.

(** The characters of a string, each with all the bytes of its encoding. *)
Fixpoint chars (s : string) : list string :=
  match s with
  | EmptyString => []
  | String c r =>
      match r with
      | EmptyString => [String c EmptyString]
      | String c' _ =>
          if continuation c'
          then match chars r with
               | h :: t => String c h :: t
               | [] => [String c EmptyString]
               end
          else String c EmptyString :: chars r
      end
  end.

(** [iter(v)] run to the end: the items of a list, the keys of a
    dictionary, the characters of a string. *)
Definition iter (v : json) : outcome (list json) :=
  match v with
  | JArr l => Ok l
  | JObj d => Ok (map (fun kv => JStr (fst kv)) d)
  | JStr s => Ok (map JStr (chars s))
  | _ => Raise TypeError
  end.

(** [v + 1]. *)
Definition add1 (v : json) : outcome json :=
  match num v with
  | Some n => Ok (JInt (n + 1))
  | None => Raise TypeError
  end.

(** [v.append(x)]: only a list has the method. *)
Definition append (v x : json) : outcome json :=
  match v with
  | JArr l => Ok (JArr (l ++ [x]))
  | _ => Raise AttributeError
  end.

(** [x in (a, b, ...)]. *)
Definition member (x : json) (l : list json) : bool :=
  existsb (fun y => eq x y) l.

(** [s.strip('/')]. *)
Fixpoint lstrip (c : ascii) (s : string) : string :=
  match s with
  | EmptyString => EmptyString
  | String c' r => if Ascii.eqb c' c then lstrip c r else s
  end.

Fixpoint rstrip (c : ascii) (s : string) : string :=
  match s with
  | EmptyString => EmptyString
  | String c' r =>
      match rstrip c r with
      | EmptyString => if Ascii.eqb c' c then EmptyString else String c' EmptyString
      | r' => String c' r'
      end
  end.

Definition strip (c : ascii) (s : string) : string := rstrip c (lstrip c s).

(** [s.split(c)]: one more piece than there are separators. *)
Fixpoint split (c : ascii) (s : string) : list string :=
  match s with
  | EmptyString => [EmptyString]
  | String c' r =>
      if Ascii.eqb c' c then EmptyString :: split c r
      else match split c r with
           | h :: t => String c' h :: t
           | [] => [String c' EmptyString]
           end
  end.

(** What [int(s)] strips at both ends: the white space of ISO-8859-1. *)
Definition space (c : ascii) : bool :=
  let n := N_of_ascii c in
  ((9 <=? n) && (n <=? 13) || (28 <=? n) && (n <=? 32)
   || (n =? 133) || (n =? 160))%N.

Fixpoint lstrip_space (s : string) : string :=
  match s with
  | EmptyString => EmptyString
  | String c r => if space c then lstrip_space r else s
  end.

Fixpoint rstrip_space (s : string) : string :=
  match s with
  | EmptyString => EmptyString
  | String c r =>
      match rstrip_space r with
      | EmptyString => if space c then EmptyString else String c EmptyString
      | r' => String c r'
      end
  end.

Definition digit (c : ascii) : option Z :=
  let n := N_of_ascii c in
  if ((48 <=? n) && (n <=? 57))%N then Some (Z.of_N n - 48) else None.

(** Where the scan of the digits of [int(s)] stands: nothing read yet, a
    digit read last, an underscore read last. *)
Inductive int_state : Type := AtStart | AfterDigit | AfterUnderscore.

Fixpoint int_digits (s : string) (st : int_state) (acc : Z) : option Z :=
  match s with
  | EmptyString =>
      match st with
      | AfterDigit => Some acc
      | _ => None
      end
  | String c r =>
      match digit c with
      | Some d => int_digits r AfterDigit (10 * acc + d)
      | None =>
          if Ascii.eqb c "_"
          then match st with
               | AfterDigit => int_digits r AfterUnderscore acc
               | _ => None
               end
          else None
      end
  end.

(** [int(s)] for a string [s]; [None] is [ValueError]. *)
Definition int (s : string) : option Z :=
  match rstrip_space (lstrip_space s) with
  | String "+" r => int_digits r AtStart 0
  | String "-" r => option_map Z.opp (int_digits r AtStart 0)
  | t => int_digits t AtStart 0
  end.

End Py.

(** ** The [json] module of the standard library

    [dumps] and [loads] follow the encoder and the scanner of CPython's
    [json] package on the values above, with [ensure_ascii=False]. *)

Module JSON.

Definition quote : ascii := "034".
Definition backslash : ascii := "092".
Definition newline : ascii := "010".

Definition hex_char (n : N) : ascii :=
  ascii_of_N (if (n <? 10)%N then 48 + n else 87 + n).

(** The encoder escapes the quote, the backslash and the control characters
    below 32, and passes every other byte on. *)
Definition escape (c : ascii) : string :=
  let n := N_of_ascii c in
  if (n =? 34)%N then String backslash (String quote EmptyString)
  else if (n =? 92)%N then String backslash (String backslash EmptyString)
  else if (n =? 10)%N then String backslash "n"
  else if (n =? 13)%N then String backslash "r"
  else if (n =? 9)%N then String backslash "t"
  else if (n =? 8)%N then String backslash "b"
  else if (n =? 12)%N then String backslash "f"
  else if (n <? 32)%N
       then String backslash
              (String "u" (String "0" (String "0"
                 (String (hex_char (n / 16)) (String (hex_char (n mod 16)) EmptyString)))))
  else String c EmptyString.

Fixpoint encode_chars (s : string) : string :=
  match s with
  | EmptyString => EmptyString
  | String c r => escape c ++ encode_chars r
  end.

Definition encode_string (s : string) : string :=
  String quote (encode_chars s ++ String quote EmptyString).

(** The decimal digits of [n >= 0], the last one first in [acc]. *)
Fixpoint decimal (fuel : nat) (n : Z) (acc : string) : string :=
  let acc' := String (ascii_of_N (48 + Z.to_N (n mod 10))) acc in
  match fuel with
  | O => acc'
  | S f => if n <? 10 then acc' else decimal f (n / 10) acc'
  end.

Definition encode_int (n : Z) : string :=
  if n <? 0
  then String "-" (decimal (Z.to_nat (Z.log2 (- n))) (- n) EmptyString)
  else decimal (Z.to_nat (Z.log2 n)) n EmptyString.

Fixpoint spaces (n : nat) : string :=
  match n with
  | O => EmptyString
  | S m => String " " (spaces m)
  end.

(** With [indent=k] every item starts on a line of its own, [k] spaces
    deeper than the bracket around it; without, nothing is inserted. *)
Definition newline_indent (indent : option nat) (level : nat) : string :=
  match indent with
  | None => EmptyString
  | Some k => String newline (spaces (k * level))
  end.

Definition item_separator (indent : option nat) : string :=
  match indent with
  | None => ", "
  | Some _ => ","
  end.

Section Containers.

Variable A : Type.
Variable item : A -> string.
Variables separator opening closing : string.

(** The items after the first: each after a separator and at the start of
    its line, then the closing bracket at the start of its own. *)
Fixpoint encode_more (xs : list A) : string :=
  match xs with
  | [] => closing
  | y :: ys => separator ++ opening ++ item y ++ encode_more ys
  end.

End Containers.

Fixpoint encode (indent : option nat) (level : nat) (v : json) {struct v} : string :=
  match v with
  | JNull => "null"
  | JBool true => "true"
  | JBool false => "false"
  | JInt n => encode_int n
  | JStr s => encode_string s
  | JArr [] => "[]"
  | JArr (x :: xs) =>
      "[" ++ newline_indent indent (S level) ++ encode indent (S level) x ++
      encode_more json (encode indent (S level))
        (item_separator indent) (newline_indent indent (S level))
        (newline_indent indent level ++ "]") xs
  | JObj [] => "{}"
  | JObj (kx :: xs) =>
      "{" ++ newline_indent indent (S level) ++
      encode_string (fst kx) ++ ": " ++ encode indent (S level) (snd kx) ++
      encode_more (string * json)
        (fun ky => encode_string (fst ky) ++ ": " ++ encode indent (S level) (snd ky))
        (item_separator indent) (newline_indent indent (S level))
        (newline_indent indent level ++ "}") xs
  end.

(** [json.dumps(v, ensure_ascii=False)]. *)
Definition dumps (v : json) : string := encode None 0 v.

(** The text [json.dump(v, f, ensure_ascii=False, indent=2)] writes to [f]. *)
Definition dump (v : json) : string := encode (Some 2%nat) 0 v.

(** *** The scanner *)

(** The result of scanning a prefix of a text: a value and the text left to
    scan, a [JSONDecodeError], a construct outside the embedding, or a
    count of steps used up. *)
Inductive scanned (A : Type) : Type :=
| Scanned (a : A) (rest : string)
| Malformed
| Beyond
| Exhausted.

Arguments Scanned {A} a rest.
Arguments Malformed {A}.
Arguments Beyond {A}.
Arguments Exhausted {A}.

Definition smap {A B : Type} (f : A -> B) (r : scanned A) : scanned B :=
  match r with
  | Scanned a rest => Scanned (f a) rest
  | Malformed => Malformed
  | Beyond => Beyond
  | Exhausted => Exhausted
  end.

Definition whitespace (c : ascii) : bool :=
  let n := N_of_ascii c in
  ((n =? 32) || (n =? 9) || (n =? 10) || (n =? 13))%N.

Fixpoint skip_ws (s : string) : string :=
  match s with
  | EmptyString => EmptyString
  | String c r => if whitespace c then skip_ws r else s
  end.

Definition hex_value (c : ascii) : option N :=
  let n := N_of_ascii c in
  if ((48 <=? n) && (n <=? 57))%N then Some (n - 48)%N
  else if ((97 <=? n) && (n <=? 102))%N then Some (n - 87)%N
  else if ((65 <=? n) && (n <=? 70))%N then Some (n - 55)%N
  else None.

(** The four hexadecimal digits after [\u]. *)
Definition hex4 (s : string) : option (N * string) :=
  match s with
  | String a (String b (String c (String d r))) =>
      match hex_value a, hex_value b, hex_value c, hex_value d with
      | Some x, Some y, Some z, Some w => Some (((x * 16 + y) * 16 + z) * 16 + w, r)%N
      | _, _, _, _ => None
      end
  | _ => None
  end.

(** The UTF-8 encoding of a code point that is not a surrogate. *)
Definition utf8 (cp : N) : string :=
  (if cp <? 128 then String (ascii_of_N cp) EmptyString
   else if cp <? 2048 then
     String (ascii_of_N (192 + cp / 64))
       (String (ascii_of_N (128 + cp mod 64)) EmptyString)
   else if cp <? 65536 then
     String (ascii_of_N (224 + cp / 4096))
       (String (ascii_of_N (128 + (cp / 64) mod 64))
          (String (ascii_of_N (128 + cp mod 64)) EmptyString))
   else
     String (ascii_of_N (240 + cp / 262144))
       (String (ascii_of_N (128 + (cp / 4096) mod 64))
          (String (ascii_of_N (128 + (cp / 64) mod 64))
             (String (ascii_of_N (128 + cp mod 64)) EmptyString))))%N.

Definition high_surrogate (cp : N) : bool := ((55296 <=? cp) && (cp <=? 56319))%N.
Definition low_surrogate (cp : N) : bool := ((56320 <=? cp) && (cp <=? 57343))%N.

(** The character a one-letter escape stands for. *)
Definition unescape (c : ascii) : option ascii :=
  let n := N_of_ascii c in
  if (n =? 34)%N then Some quote
  else if (n =? 92)%N then Some backslash
  else if (n =? 47)%N then Some "/"%char
  else if (n =? 98)%N then Some "008"%char
  else if (n =? 102)%N then Some "012"%char
  else if (n =? 110)%N then Some "010"%char
  else if (n =? 114)%N then Some "013"%char
  else if (n =? 116)%N then Some "009"%char
  else None.

(** The characters of a string literal after its opening quote, up to the
    closing quote.  A surrogate that is not the first half of a pair
    written as two [\u] escapes is outside the embedding. *)
Fixpoint scanstring (fuel : nat) (s : string) : scanned string :=
  match fuel with
  | O => Exhausted
  | S f =>
      match s with
      | EmptyString => Malformed
      | String c r =>
          if Ascii.eqb c quote then Scanned EmptyString r
          else if Ascii.eqb c backslash then
            match r with
            | EmptyString => Malformed
            | String e r1 =>
                if Ascii.eqb e "u" then
                  match hex4 r1 with
                  | None => Malformed
                  | Some (cp, r2) =>
                      if high_surrogate cp then
                        match r2 with
                        | String b (String u r3) =>
                            if Ascii.eqb b backslash && Ascii.eqb u "u" then
                              match hex4 r3 with
                              | Some (lo, r4) =>
                                  if low_surrogate lo
                                  then smap (append (utf8 (65536 + (cp - 55296) * 1024 + (lo - 56320))%N))
                                         (scanstring f r4)
                                  else Beyond
                              | None => Beyond
                              end
                            else Beyond
                        | _ => Beyond
                        end
                      else if low_surrogate cp then Beyond
                      else smap (append (utf8 cp)) (scanstring f r2)
                  end
                else
                  match unescape e with
                  | Some ch => smap (String ch) (scanstring f r1)
                  | None => Malformed
                  end
            end
          else if (N_of_ascii c <? 32)%N then Malformed
          else smap (String c) (scanstring f r)
      end
  end.

Definition digit (c : ascii) : option Z :=
  let n := N_of_ascii c in
  if ((48 <=? n) && (n <=? 57))%N then Some (Z.of_N n - 48) else None.

(** The longest run of digits at the head of [s], read after [acc]. *)
Fixpoint digits (s : string) (acc : Z) : Z * string :=
  match s with
  | EmptyString => (acc, s)
  | String c r =>
      match digit c with
      | Some d => digits r (10 * acc + d)
      | None => (acc, s)
      end
  end.

Definition starts_with_digit (s : string) : bool :=
  match s with
  | String c _ => match digit c with Some _ => true | None => false end
  | EmptyString => false
  end.

(** Whether a fraction or an exponent follows the integer part: the number
    is then a float. *)
Definition float_tail (s : string) : bool :=
  match s with
  | String c r =>
      if Ascii.eqb c "." then starts_with_digit r
      else if Ascii.eqb c "e" || Ascii.eqb c "E" then
        match r with
        | String sg r' =>
            if Ascii.eqb sg "+" || Ascii.eqb sg "-" then starts_with_digit r'
            else starts_with_digit r
        | EmptyString => false
        end
      else false
  | EmptyString => false
  end.

(** The integer part is [0] or starts with a digit from 1 to 9. *)
Definition scan_natural (s : string) : option (Z * string) :=
  match s with
  | String c r =>
      match digit c with
      | Some 0 => Some (0, r)
      | Some d => Some (digits r d)
      | None => None
      end
  | EmptyString => None
  end.

Definition scan_number (s : string) : scanned json :=
  let '(negative, s1) :=
    match s with
    | String c r => if Ascii.eqb c "-" then (true, r) else (false, s)
    | EmptyString => (false, s)
    end in
  match scan_natural s1 with
  | Some (n, r) =>
      if float_tail r then Beyond
      else Scanned (JInt (if negative then - n else n)) r
  | None => Malformed
  end.

Fixpoint strip_prefix (p s : string) : option string :=
  match p, s with
  | EmptyString, _ => Some s
  | String a p', String b s' => if Ascii.eqb a b then strip_prefix p' s' else None
  | String _ _, EmptyString => None
  end.

(** The items of an array after the first has been found to be there. *)
Fixpoint scan_items (fuel : nat) (value : string -> scanned json) (s : string)
  : scanned (list json) :=
  match fuel with
  | O => Exhausted
  | S f =>
      match value s with
      | Scanned v rest =>
          match skip_ws rest with
          | String c r =>
              if Ascii.eqb c "]" then Scanned [v] r
              else if Ascii.eqb c "," then smap (cons v) (scan_items f value (skip_ws r))
              else Malformed
          | EmptyString => Malformed
          end
      | Malformed => Malformed
      | Beyond => Beyond
      | Exhausted => Exhausted
      end
  end.

(** The members of an object, each a string literal, a colon and a value. *)
Fixpoint scan_members (fuel : nat) (value : string -> scanned json) (s : string)
  : scanned (list (string * json)) :=
  match fuel with
  | O => Exhausted
  | S f =>
      match s with
      | String q r =>
          if Ascii.eqb q quote then
            match scanstring (S (String.length r)) r with
            | Scanned key rest =>
                match skip_ws rest with
                | String c r1 =>
                    if Ascii.eqb c ":" then
                      match value (skip_ws r1) with
                      | Scanned v rest2 =>
                          match skip_ws rest2 with
                          | String c2 r2 =>
                              if Ascii.eqb c2 "}" then Scanned [(key, v)] r2
                              else if Ascii.eqb c2 ","
                              then smap (cons (key, v)) (scan_members f value (skip_ws r2))
                              else Malformed
                          | EmptyString => Malformed
                          end
                      | Malformed => Malformed
                      | Beyond => Beyond
                      | Exhausted => Exhausted
                      end
                    else Malformed
                | EmptyString => Malformed
                end
            | Malformed => Malformed
            | Beyond => Beyond
            | Exhausted => Exhausted
            end
          else Malformed
      | EmptyString => Malformed
      end
  end.

(** A dictionary is filled member by member: a key met again keeps its
    place and takes the later value. *)
Definition dict_of_pairs (pairs : list (string * json)) : list (string * json) :=
  fold_left (fun d kv => Py.dict_set (fst kv) (snd kv) d) pairs [].

(** The constants and the numbers. *)
Definition scan_atom (s : string) : scanned json :=
  match strip_prefix "null" s with
  | Some r => Scanned JNull r
  | None =>
  match strip_prefix "true" s with
  | Some r => Scanned (JBool true) r
  | None =>
  match strip_prefix "false" s with
  | Some r => Scanned (JBool false) r
  | None =>
  match strip_prefix "NaN" s with
  | Some _ => Beyond
  | None =>
  match strip_prefix "Infinity" s with
  | Some _ => Beyond
  | None =>
  match strip_prefix "-Infinity" s with
  | Some _ => Beyond
  | None => scan_number s
  end end end end end end.

(** One value at the head of [s]. *)
Fixpoint scan_once (fuel : nat) (s : string) : scanned json :=
  match fuel with
  | O => Exhausted
  | S f =>
      match s with
      | EmptyString => Malformed
      | String c r =>
          if Ascii.eqb c quote then smap JStr (scanstring (S (String.length r)) r)
          else if Ascii.eqb c "{" then
            match skip_ws r with
            | String c' r' =>
                if Ascii.eqb c' "}" then Scanned (JObj []) r'
                else smap (fun ps => JObj (dict_of_pairs ps))
                       (scan_members f (scan_once f) (String c' r'))
            | EmptyString => Malformed
            end
          else if Ascii.eqb c "[" then
            match skip_ws r with
            | String c' r' =>
                if Ascii.eqb c' "]" then Scanned (JArr []) r'
                else smap JArr (scan_items f (scan_once f) (String c' r'))
            | EmptyString => Malformed
            end
          else scan_atom s
      end
  end.

(** What [json.loads] does with a text: it returns a value, raises
    [JSONDecodeError], or meets a construct outside the embedding. *)
Inductive loaded : Type :=
| Value (v : json)
| JSONDecodeError
| Outside.

(** [json.loads(s)]: one value, white space around it, nothing else.  The
    scanner is given more steps than the text has characters, and does not
    use them up. *)
Definition loads (s : string) : loaded :=
  match scan_once (S (String.length s)) (skip_ws s) with
  | Scanned v rest =>
      match skip_ws rest with
      | EmptyString => Value v
      | String _ _ => JSONDecodeError
      end
  | Malformed => JSONDecodeError
  | Beyond => Outside
  | Exhausted => JSONDecodeError
  end.

End JSON.

(** A text written with an apostrophe wherever it has a quote. *)
Fixpoint dq (s : string) : string :=
  match s with
  | EmptyString => EmptyString
  | String c r => String (if Ascii.eqb c "'" then JSON.quote else c) (dq r)
  end.

(** ** The file of the tasks *)

(** What is in a file: bytes that are not UTF-8, or the encoding of a text. *)
Inductive content : Type :=
| Garbled
| Text (s : string).

(** What happens when the file is opened with ['w'] and written: it takes
    the whole text, or an [IOError] comes on the way and the file is left
    as [residue] (as it was when it could not be opened, cut short when the
    write broke off). *)
Inductive write_mode : Type :=
| Writable
| Failing (residue : option content).

Inductive io_event : Type :=
| Wrote (text : string)
| WriteFailed.

(** The file named [filename]: [file] is [None] when [os.path.exists] is
    false; [readable] says whether opening and reading go without an
    [IOError]; [trace] has one event for each time the file was opened for
    writing, the latest first. *)
Record disk : Type := {
  file : option content;
  readable : bool;
  writing : write_mode;
  trace : list io_event
}.

Definition write (text : string) (d : disk) : disk :=
  match writing d with
  | Writable =>
      {| file := Some (Text text); readable := readable d;
         writing := writing d; trace := Wrote text :: trace d |}
  | Failing residue =>
      {| file := residue; readable := readable d;
         writing := writing d; trace := WriteFailed :: trace d |}
  end.

(** ** TaskManager *)

(** [self.tasks] and the file behind [self.filename]. *)
Record store : Type := {
  tasks : json;
  fs : disk
}.

Definition set_tasks (st : store) (v : json) : store :=
  {| tasks := v; fs := fs st |}.

(** [load]: the [except] clause names [json.JSONDecodeError] and [IOError];
    the [UnicodeDecodeError] of the read is neither. *)
Definition load (st : store) : outcome store :=
  match file (fs st) with
  | Some c =>
      if readable (fs st) then
        match c with
        | Garbled => Raise UnicodeDecodeError
        | Text s =>
            match JSON.loads s with
            | JSON.Value v => Ok (set_tasks st v)
            | JSON.JSONDecodeError => Ok (set_tasks st (JArr []))
            | JSON.Outside => Unmodelled
            end
        end
      else Ok (set_tasks st (JArr []))
  | None => Ok (set_tasks st (JArr []))
  end.

(** [__init__]. *)
Definition init (d : disk) : outcome store :=
  load {| tasks := JArr []; fs := d |}.

(** [save]: an [IOError] is passed over. *)
Definition save (st : store) : store :=
  {| tasks := tasks st; fs := write (JSON.dump (tasks st)) (fs st) |}.

(** [max((task['id'] for task in self.tasks), default=0)]: the generator
    hands over one id at a time, [max] keeps the greatest so far. *)
Fixpoint max_id (items : list json) (best : option json) : outcome json :=
  match items with
  | [] => Ok (match best with Some m => m | None => JInt 0 end)
  | task :: rest =>
      i <- Py.getitem task "id" ;;
      match best with
      | None => max_id rest (Some i)
      | Some m => b <- Py.gt i m ;; max_id rest (Some (if b then i else m))
      end
  end.

Definition create_task (st : store) (title priority : json) : outcome (json * store) :=
  items <- Py.iter (tasks st) ;;
  m <- max_id items None ;;
  new_id <- Py.add1 m ;;
  let task := JObj [("id", new_id); ("title", title);
                    ("priority", priority); ("isDone", JBool false)] in
  tasks' <- Py.append (tasks st) task ;;
  Ok (task, save (set_tasks st tasks')).

(** How the loop of [complete_task] ends: past the last task, at a task
    that was done already, or at a task it has just marked done. *)
Inductive scan : Type :=
| NotFound
| FoundDone
| Marked (items : list json).

Fixpoint complete_loop (items : list json) (task_id : Z) : outcome scan :=
  match items with
  | [] => Ok NotFound
  | task :: rest =>
      i <- Py.getitem task "id" ;;
      if Py.eq i (JInt task_id) then
        d <- Py.getitem task "isDone" ;;
        if negb (Py.truthy d) then
          task' <- Py.setitem task "isDone" (JBool true) ;;
          Ok (Marked (task' :: rest))
        else Ok FoundDone
      else
        r <- complete_loop rest task_id ;;
        Ok (match r with
            | Marked rest' => Marked (task :: rest')
            | NotFound => NotFound
            | FoundDone => FoundDone
            end)
  end.

(** A task is marked where it stands in [self.tasks]: the loop reaches the
    body of the [if] only at a dictionary, so [self.tasks] is a list then. *)
Definition complete_task (st : store) (task_id : Z) : outcome (bool * store) :=
  items <- Py.iter (tasks st) ;;
  r <- complete_loop items task_id ;;
  Ok (match r with
      | NotFound => (false, st)
      | FoundDone => (true, st)
      | Marked items' => (true, save (set_tasks st (JArr items')))
      end).

Definition get_all (st : store) : json := tasks st.

(** ** TaskHandler *)

Record response : Type := {
  status : Z;
  content_type : option string;
  body : string
}.

(** [send_response(code); end_headers()]. *)
Definition send_response (code : Z) : response :=
  {| status := code; content_type := None; body := EmptyString |}.

Definition _send_json_response (code : Z) (data : json) : response :=
  {| status := code; content_type := Some "application/json";
     body := JSON.dumps data |}.

Definition _send_error (code : Z) (message : string) : response :=
  {| status := code; content_type := None; body := message |}.

(** The bytes [self.rfile.read(content_length)] returns, as [json.loads]
    decodes them: to a text, or not at all.  (The header [Content-Length]
    is taken to be an integer, and the body to be that long.) *)
Inductive payload : Type :=
| Undecodable
| Decoded (text : string).

Record request : Type := {
  command : string;
  path : string;
  rfile : payload
}.

Definition do_GET (st : store) (rq : request) : outcome (response * store) :=
  if String.eqb (path rq) "/tasks"
  then Ok (_send_json_response 200 (get_all st), st)
  else Ok (send_response 404, st).

(** [json.loads(body)] raises [UnicodeDecodeError], which is not a
    [JSONDecodeError], on bytes it cannot decode. *)
Definition _handle_create_task (st : store) (rq : request)
  : outcome (response * store) :=
  match rfile rq with
  | Undecodable => Raise UnicodeDecodeError
  | Decoded text =>
      match JSON.loads text with
      | JSON.JSONDecodeError => Ok (_send_error 400 "Invalid JSON", st)
      | JSON.Outside => Unmodelled
      | JSON.Value data =>
          title <- Py.get data "title" ;;
          priority <- Py.get data "priority" ;;
          if negb (Py.truthy title) || negb (Py.truthy priority)
          then Ok (_send_error 400 "Missing title or priority", st)
          else if negb (Py.member priority [JStr "low"; JStr "normal"; JStr "high"])
          then Ok (_send_error 400 "Priority must be low, normal, or high", st)
          else
            r <- create_task st title priority ;;
            Ok (_send_json_response 201 (fst r), snd r)
      end
  end.

Definition _handle_complete_task (st : store) (task_id_str : string)
  : outcome (response * store) :=
  match Py.int task_id_str with
  | None => Ok (send_response 404, st)
  | Some task_id =>
      r <- complete_task st task_id ;;
      if fst r then Ok (send_response 200, snd r)
      else Ok (send_response 404, snd r)
  end.

(** [a == b] on lists of strings. *)
Fixpoint list_eqb (a b : list string) : bool :=
  match a, b with
  | [], [] => true
  | x :: a', y :: b' => String.eqb x y && list_eqb a' b'
  | _, _ => false
  end.

Definition do_POST (st : store) (rq : request) : outcome (response * store) :=
  let parts := Py.split "/" (Py.strip "/" (path rq)) in
  if list_eqb parts ["tasks"] then _handle_create_task st rq
  else if Nat.eqb (List.length parts) 3
          && String.eqb (nth 0 parts EmptyString) "tasks"
          && String.eqb (nth 2 parts EmptyString) "complete"
  then _handle_complete_task st (nth 1 parts EmptyString)
  else Ok (send_response 404, st).

(** What the client gets: a response written by the handler, or the error
    page [BaseHTTPRequestHandler] sends with status 501 when the class has
    no method [do_] followed by the command. *)
Inductive reply : Type :=
| Reply (r : response)
| Unsupported.

Definition reply_status (r : reply) : Z :=
  match r with
  | Reply x => status x
  | Unsupported => 501
  end.

(** [handle_one_request] of [BaseHTTPRequestHandler], once the request line
    and the headers are read: [TaskHandler] has [do_GET] and [do_POST]. *)
Definition handle (st : store) (rq : request) : outcome (reply * store) :=
  if String.eqb (command rq) "GET"
  then r <- do_GET st rq ;; Ok (Reply (fst r), snd r)
  else if String.eqb (command rq) "POST"
  then r <- do_POST st rq ;; Ok (Reply (fst r), snd r)
  else Ok (Unsupported, st).

(** ** The tasks of the data model *)

Module Task.

(** A task as [create_task] builds it: an integer [id], a boolean [isDone],
    and the [title] and [priority] it was given. *)
Record t : Type := {
  id : Z;
  title : json;
  priority : json;
  isDone : bool
}.

Definition to_json (x : t) : json :=
  JObj [("id", JInt (id x)); ("title", title x);
        ("priority", priority x); ("isDone", JBool (isDone x))].

Definition done (x : t) : t :=
  {| id := id x; title := title x; priority := priority x; isDone := true |}.

End Task.

(** A collection of tasks as it stands in [self.tasks]. *)
Definition collection (ts : list Task.t) : json := JArr (map Task.to_json ts).

(** The greatest id of a collection, 0 when it is empty. *)
Definition max_existing (ts : list Task.t) : Z :=
  match map Task.id ts with
  | [] => 0
  | i :: rest => fold_left Z.max rest i
  end.

(** The collection after the first task with id [k] is marked done. *)
Fixpoint mark_done (k : Z) (ts : list Task.t) : list Task.t :=
  match ts with
  | [] => []
  | x :: rest =>
      if Task.id x =? k then Task.done x :: rest else x :: mark_done k rest
  end.

(** [create_task] called once for each pair of a title and a priority. *)
Fixpoint create_all (st : store) (args : list (json * json))
  : outcome (list json * store) :=
  match args with
  | [] => Ok ([], st)
  | (title, priority) :: rest =>
      r <- create_task st title priority ;;
      r' <- create_all (snd r) rest ;;
      Ok (fst r :: fst r', snd r')
  end.

(** The routes as the table of the interface has them: [GET /tasks],
    [POST /tasks] and [POST /tasks/<id>/complete]. *)
Definition in_table (rq : request) : Prop :=
  (command rq = "GET" /\ path rq = "/tasks")
  \/ (command rq = "POST" /\ path rq = "/tasks")
  \/ (command rq = "POST" /\
      exists seg : string, path rq = ("/tasks/" ++ seg ++ "/complete")%string).

(** The invariants of the data model on a collection of tasks: the ids are
    distinct and positive, no title is empty ([isDone] is a boolean by the
    type of a task). *)
Definition data_model (ts : list Task.t) : Prop :=
  NoDup (map Task.id ts)
  /\ Forall (fun x => 0 < Task.id x /\ Py.truthy (Task.title x) = true) ts.

(** ** Notions the proofs use *)

(** The test of the loop of [complete_task] on a task. *)
Definition has_id (k : Z) (x : Task.t) : bool := Task.id x =? k.

(** What [complete_task] may change in a task: nothing but [isDone], and
    that only from false to true. *)
Definition later (a b : Task.t) : Prop :=
  Task.id a = Task.id b /\ Task.title a = Task.title b
  /\ Task.priority a = Task.priority b
  /\ (Task.isDone a = true -> Task.isDone b = true).

(** [k] is no key of [d]. *)
Definition fresh (k : string) (d : list (string * json)) : bool :=
  negb (existsb (fun kv => String.eqb k (fst kv)) d).

(** No key comes twice in [d]. *)
Fixpoint distinct (d : list (string * json)) : bool :=
  match d with
  | [] => true
  | kv :: d' => fresh (fst kv) d' && distinct d'
  end.

(** A Python dictionary has each key once: [well_keyed v] says so of every
    dictionary in [v], which the association lists do not by their type. *)
Fixpoint well_keyed (v : json) : bool :=
  match v with
  | JArr l => forallb well_keyed l
  | JObj d => distinct d && forallb (fun kv => well_keyed (snd kv)) d
  | _ => true
  end.

(** The number of values in a value, itself counted. *)
Fixpoint weight (v : json) : nat :=
  match v with
  | JArr l => S (list_sum (map weight l))
  | JObj d => S (list_sum (map (fun kv => weight (snd kv)) d))
  | _ => 1%nat
  end.

(** A text that begins with a character that is not white space. *)
Definition solid (s : string) : Prop :=
  match s with
  | String c _ => JSON.whitespace c = false
  | EmptyString => False
  end.

(** What may follow a number: neither a digit nor the start of a fraction
    or of an exponent. *)
Definition delimited (rest : string) : bool :=
  negb (JSON.starts_with_digit rest) && negb (JSON.float_tail rest).

(** The first character of an encoded value opens a value: it is not white
    space and closes no bracket. *)
Definition opens_value (s : string) : Prop :=
  match s with
  | String c _ =>
      JSON.whitespace c = false /\ Ascii.eqb c "]" = false
      /\ Ascii.eqb c "}" = false
  | EmptyString => False
  end.

(** The scanner, given steps enough, reads [v] back from its encoding and
    stops where the encoding ends. *)
Definition round_trips (v : json) : Prop :=
  well_keyed v = true ->
  forall (indent : option nat) (level : nat) (rest : string) (fuel : nat),
    (weight v < fuel)%nat -> delimited rest = true ->
    JSON.scan_once fuel (JSON.encode indent level v ++ rest) = JSON.Scanned v rest.

(** *** Inputs of the examples *)

(** No file yet, in a place where one can be written and read. *)
Definition blank : disk :=
  {| file := None; readable := true; writing := Writable; trace := [] |}.

(** A readable file with the given text, quotes written as apostrophes. *)
Definition holding (text : string) : disk :=
  {| file := Some (Text (dq text)); readable := true;
     writing := Writable; trace := [] |}.

Definition empty_store : store := {| tasks := JArr []; fs := blank |}.

Definition GET (p : string) : request :=
  {| command := "GET"; path := p; rfile := Decoded EmptyString |}.

Definition POST (p text : string) : request :=
  {| command := "POST"; path := p; rfile := Decoded (dq text) |}.

Definition PUT (p text : string) : request :=
  {| command := "PUT"; path := p; rfile := Decoded (dq text) |}.

Definition milk : Task.t :=
  {| Task.id := 1; Task.title := JStr "Buy milk";
     Task.priority := JStr "low"; Task.isDone := false |}.

(** A manager made on a file with the given text holds [v]. *)
Definition loads_as (text : string) (v : json) : Prop :=
  init (holding text) = Ok {| tasks := v; fs := holding text |}.

(** A scan that ends, and leaves less text than it was given. *)
Definition settled {A : Type} (s : string) (r : JSON.scanned A) : Prop :=
  match r with
  | JSON.Scanned _ rest => (String.length rest < String.length s)%nat
  | JSON.Exhausted => False
  | _ => True
  end.

(** ** The server *)

(** [serve_forever] on the requests that come in, one after the other, until
    the interrupt.  An exception that leaves the handler is caught by the
    server, which closes the connection: the client gets no response, and
    the next request finds the store as the handler left it, which is as it
    was, since the handler raises before it changes anything. *)
Fixpoint serve (st : store) (rqs : list request)
  : outcome (list (option reply) * store) :=
  match rqs with
  | [] => Ok ([], st)
  | rq :: rest =>
      match handle st rq with
      | Ok (r, st') => x <- serve st' rest ;; Ok (Some r :: fst x, snd x)
      | Raise _ => x <- serve st rest ;; Ok (None :: fst x, snd x)
      | Unmodelled => Unmodelled
      end
  end.

(** The program: the class body of [TaskHandler] makes the one
    [TaskManager], then [run] serves. *)
Definition run (d : disk) (rqs : list request)
  : outcome (list (option reply) * store) :=
  st <- init d ;; serve st rqs.

(** ** More notions *)

(** The body of the request, if it decodes, has no number or escape that
    the scanner leaves out. *)
Definition in_model (rq : request) : Prop :=
  forall text, rfile rq = Decoded text -> JSON.loads text <> JSON.Outside.

(** The greatest of a list of integers, 0 when there is none. *)
Definition greatest (ns : list Z) : Z :=
  match ns with
  | [] => 0
  | n :: rest => fold_left Z.max rest n
  end.

(** [it] is a dictionary whose key [id] holds the integer [n]. *)
Definition has_int_id (it : json) (n : Z) : Prop :=
  exists d, it = JObj d /\ Py.dict_get "id" d = Some (JInt n).

(** The three priorities. *)
Definition priorities : list json := [JStr "low"; JStr "normal"; JStr "high"].

(** What the handler lets through to [create_task]. *)
Definition accepted (x : Task.t) : Prop :=
  Py.truthy (Task.title x) = true
  /\ In (Task.priority x) priorities
  /\ well_keyed (Task.title x) = true.

(** The ids are 1, 2, ... in the order of the list. *)
Definition numbered (ts : list Task.t) : Prop :=
  map Task.id ts = map Z.of_nat (seq 1 (List.length ts)).

(** Every character of [s] passes [p]. *)
Fixpoint all_chars (p : ascii -> bool) (s : string) : bool :=
  match s with
  | EmptyString => true
  | String c r => p c && all_chars p r
  end.

(** A digit or the minus sign. *)
Definition int_char (c : ascii) : bool :=
  match JSON.digit c with
  | Some _ => true
  | None => Ascii.eqb c "-"
  end.

(** The tasks the server can come to hold: numbered from 1 and let through
    by the handler. *)
Definition served (ts : list Task.t) : Prop :=
  numbered ts /\ Forall accepted ts.

(** [ts'] is [ts], some of its tasks done since, with new tasks after it. *)
Definition grown (ts ts' : list Task.t) : Prop :=
  exists old new, ts' = (old ++ new)%list /\ Forall2 later ts old.

(** A scan that gives a value gives one whose dictionaries have distinct
    keys. *)
Definition sound (r : JSON.scanned json) : Prop :=
  match r with
  | JSON.Scanned v _ => well_keyed v = true
  | _ => True
  end.

(** * Properties *)

Local Open Scope list_scope.

(** ** The store on a collection of tasks *)

Section OnTasks.

Variable d : disk.

Lemma iter_collection (ts : list Task.t) :
  Py.iter (collection ts) = Ok (map Task.to_json ts).
Proof. reflexivity. Qed.

Lemma getitem_id (x : Task.t) :
  Py.getitem (Task.to_json x) "id" = Ok (JInt (Task.id x)).
Proof. reflexivity. Qed.

Lemma getitem_isDone (x : Task.t) :
  Py.getitem (Task.to_json x) "isDone" = Ok (JBool (Task.isDone x)).
Proof. reflexivity. Qed.

Lemma setitem_isDone (x : Task.t) :
  Py.setitem (Task.to_json x) "isDone" (JBool true) = Ok (Task.to_json (Task.done x)).
Proof. reflexivity. Qed.

Lemma max_id_from (ts : list Task.t) (m : Z) :
  max_id (map Task.to_json ts) (Some (JInt m))
  = Ok (JInt (fold_left Z.max (map Task.id ts) m)).
Proof.
  revert m; induction ts as [|x ts IH]; intro m; [reflexivity|].
  cbn [map max_id fold_left]. rewrite getitem_id. cbn [bind Py.gt Py.num].
  replace (if Task.id x >? m then JInt (Task.id x) else JInt m)
    with (JInt (Z.max m (Task.id x))).
  - apply IH.
  - destruct (Z.gtb_spec (Task.id x) m); f_equal; lia.
Qed.

Lemma max_id_collection (ts : list Task.t) :
  max_id (map Task.to_json ts) None = Ok (JInt (max_existing ts)).
Proof.
  destruct ts as [|x ts]; [reflexivity|].
  cbn [map max_id]. rewrite getitem_id. cbn [bind].
  apply max_id_from.
Qed.

Lemma collection_app (ts : list Task.t) (x : Task.t) :
  Py.append (collection ts) (Task.to_json x) = Ok (collection (ts ++ [x])).
Proof. unfold collection, Py.append. now rewrite map_app. Qed.

Lemma create_task_on_tasks (ts : list Task.t) (title priority : json) :
  let x := {| Task.id := max_existing ts + 1; Task.title := title;
              Task.priority := priority; Task.isDone := false |} in
  create_task {| tasks := collection ts; fs := d |} title priority
  = Ok (Task.to_json x, save {| tasks := collection (ts ++ [x]); fs := d |}).
Proof.
  intro x. unfold create_task. cbn [tasks]. rewrite iter_collection. cbn [bind].
  rewrite max_id_collection. cbn [bind Py.add1 Py.num].
  change (JObj [("id", JInt (max_existing ts + 1)); ("title", title);
                ("priority", priority); ("isDone", JBool false)])
    with (Task.to_json x).
  rewrite collection_app. reflexivity.
Qed.

End OnTasks.

Lemma fold_max_ge (l : list Z) (m : Z) : m <= fold_left Z.max l m.
Proof.
  revert m; induction l as [|a l IH]; intro m; cbn; [lia|].
  specialize (IH (Z.max m a)). lia.
Qed.

Lemma fold_max_app (l : list Z) (m a : Z) :
  fold_left Z.max (l ++ [a]) m = Z.max (fold_left Z.max l m) a.
Proof. now rewrite fold_left_app. Qed.

Lemma max_existing_snoc (ts : list Task.t) (x : Task.t) :
  max_existing (ts ++ [x])
  = match ts with [] => Task.id x | _ => Z.max (max_existing ts) (Task.id x) end.
Proof.
  destruct ts as [|y ts]; [reflexivity|].
  unfold max_existing. cbn [map app]. rewrite map_app. cbn [map].
  apply fold_max_app.
Qed.

Lemma fold_max_in (l : list Z) (m : Z) : In (fold_left Z.max l m) (m :: l).
Proof.
  revert m; induction l as [|a l IH]; intro m; cbn [fold_left]; [now left|].
  specialize (IH (Z.max m a)).
  destruct (Z.max_spec m a) as [[_ E]|[_ E]]; rewrite E in IH |- *;
    destruct IH as [H|H].
  - right; left; exact H.
  - right; right; exact H.
  - left; exact H.
  - right; right; exact H.
Qed.

Lemma fold_max_upper (l : list Z) (m x : Z) :
  In x (m :: l) -> x <= fold_left Z.max l m.
Proof.
  revert m; induction l as [|a l IH]; intros m H; cbn [fold_left].
  - destruct H as [H|[]]; lia.
  - pose proof (fold_max_ge l (Z.max m a)).
    destruct H as [H|[H|H]]; [lia|lia|].
    apply IH; now right.
Qed.

(** [max_existing] is the greatest id: the id of a task of the collection,
    with no id above it. *)
Lemma max_existing_greatest (ts : list Task.t) (x : Task.t) :
  In x ts ->
  In (max_existing ts) (map Task.id ts) /\ Task.id x <= max_existing ts.
Proof.
  intro H. destruct ts as [|y ts]; [destruct H|].
  unfold max_existing. cbn [map]. split.
  - apply fold_max_in.
  - apply fold_max_upper. change (In (Task.id x) (map Task.id (y :: ts))).
    now apply in_map.
Qed.

Lemma create_all_from (args : list (json * json)) :
  forall (d : disk) (ts : list Task.t),
  exists (new : list Task.t) (st' : store),
    create_all {| tasks := collection ts; fs := d |} args
    = Ok (map Task.to_json new, st')
    /\ tasks st' = collection (ts ++ new)
    /\ map Task.id new
       = map (fun i => max_existing ts + Z.of_nat i) (seq 1 (List.length args))
    /\ map Task.title new = map fst args
    /\ map Task.priority new = map snd args
    /\ Forall (fun x => Task.isDone x = false) new.
Proof.
  induction args as [|[title priority] args IH]; intros d ts.
  { exists [], {| tasks := collection ts; fs := d |}.
    rewrite app_nil_r. repeat split; constructor. }
  { cbn [create_all]. rewrite create_task_on_tasks. cbn [bind snd fst].
    unfold save. cbn [tasks fs].
    set (x := {| Task.id := max_existing ts + 1; Task.title := title;
                 Task.priority := priority; Task.isDone := false |}).
    destruct (IH (write (JSON.dump (collection (ts ++ [x]))) d) (ts ++ [x]))
      as (new & st' & E & Ht & Hid & Htitle & Hprio & Hdone).
    rewrite E. cbn [bind fst snd].
    exists (x :: new), st'. split; [reflexivity|].
    split; [now rewrite Ht, <- app_assoc|].
    assert (Hmax : max_existing (ts ++ [x]) = max_existing ts + 1).
    { rewrite max_existing_snoc. destruct ts as [|y ts']; [reflexivity|].
      cbn [Task.id x]. lia. }
    split.
    - cbn [map List.length seq]. f_equal; [try (cbn; lia) ..|].
      rewrite Hid, Hmax, <- (seq_shift (List.length args) 1), map_map.
      apply map_ext. intro i. lia.
    - cbn [map fst snd]. rewrite Htitle, Hprio.
      repeat split. now constructor. }
Qed.

(** C1. Whatever the collection of tasks, the file, the title and the
    priority, [create_task] returns a task whose id is the greatest id of
    the collection (0 when it is empty) plus 1, and appends it; so the ids
    given out by any sequence of calls that starts at the empty collection
    are 1, 2, ..., N. *)
Theorem create_task_assigns_next_id :
  (forall (ts : list Task.t) (d : disk) (title priority : json),
     let x := {| Task.id := max_existing ts + 1; Task.title := title;
                 Task.priority := priority; Task.isDone := false |} in
     create_task {| tasks := collection ts; fs := d |} title priority
     = Ok (Task.to_json x, save {| tasks := collection (ts ++ [x]); fs := d |}))
  /\
  (forall (args : list (json * json)) (d : disk),
     exists (new : list Task.t) (st' : store),
       create_all {| tasks := JArr []; fs := d |} args
       = Ok (map Task.to_json new, st')
       /\ tasks st' = collection new
       /\ map Task.id new = map Z.of_nat (seq 1 (List.length args))
       /\ map Task.title new = map fst args
       /\ map Task.priority new = map snd args).
Proof.
  split.
  - intros. apply create_task_on_tasks.
  - intros args d.
    destruct (create_all_from args d []) as (new & st' & E & Ht & Hid & Htitle & Hprio & _).
    exists new, st'. split; [exact E|]. split; [exact Ht|].
    split; [|now split].
    rewrite Hid. apply map_ext. intro i. cbn [max_existing map]. lia.
Qed.

(** *** [complete_task] *)

Lemma complete_loop_on_tasks (ts : list Task.t) (k : Z) :
  complete_loop (map Task.to_json ts) k
  = Ok (match find (has_id k) ts with
        | None => NotFound
        | Some x =>
            if Task.isDone x then FoundDone
            else Marked (map Task.to_json (mark_done k ts))
        end).
Proof.
  induction ts as [|x ts IH]; [reflexivity|].
  cbn [map complete_loop find mark_done]. rewrite getitem_id.
  cbn [bind Py.eq]. unfold has_id at 1.
  destruct (Task.id x =? k).
  - rewrite getitem_isDone. cbn [bind Py.truthy].
    destruct (Task.isDone x); cbn [negb]; [reflexivity|].
    rewrite setitem_isDone. reflexivity.
  - rewrite IH. cbn [bind]. destruct (find (has_id k) ts) as [y|]; [|reflexivity].
    destruct (Task.isDone y); reflexivity.
Qed.

Lemma complete_task_on_tasks (ts : list Task.t) (d : disk) (k : Z) :
  let st := {| tasks := collection ts; fs := d |} in
  complete_task st k
  = Ok (match find (has_id k) ts with
        | None => (false, st)
        | Some x =>
            if Task.isDone x then (true, st)
            else (true, save {| tasks := collection (mark_done k ts); fs := d |})
        end).
Proof.
  intro st. unfold complete_task. cbn [tasks st]. rewrite iter_collection. cbn [bind].
  rewrite complete_loop_on_tasks. cbn [bind].
  destruct (find (has_id k) ts) as [x|]; [|reflexivity].
  destruct (Task.isDone x); reflexivity.
Qed.

Lemma find_first (k : Z) (before after : list Task.t) (x : Task.t) :
  (forall y, In y before -> Task.id y <> k) -> Task.id x = k ->
  find (has_id k) (before ++ x :: after) = Some x
  /\ mark_done k (before ++ x :: after) = before ++ Task.done x :: after.
Proof.
  intros Hb Hx. induction before as [|y before IH]; cbn [app find mark_done].
  - unfold has_id. subst k. rewrite Z.eqb_refl. now split.
  - unfold has_id at 1.
    destruct (Z.eqb_spec (Task.id y) k) as [E|_].
    + exfalso. apply (Hb y); [now left|exact E].
    + destruct IH as [IH1 IH2]; [intros z Hz; apply Hb; now right|].
      rewrite IH1, IH2. now split.
Qed.

Lemma find_split (k : Z) (ts : list Task.t) (x : Task.t) :
  find (has_id k) ts = Some x ->
  exists before after,
    ts = before ++ x :: after
    /\ (forall y, In y before -> Task.id y <> k) /\ Task.id x = k.
Proof.
  induction ts as [|y ts IH]; cbn [find]; [discriminate|].
  unfold has_id at 1. destruct (Z.eqb_spec (Task.id y) k) as [E|N]; intro H.
  - injection H as <-. exists [], ts. repeat split; [intros ? []|exact E].
  - destruct (IH H) as (before & after & -> & Hb & Hx).
    exists (y :: before), after. repeat split; [|exact Hx].
    intros z [<-|Hz]; [exact N|now apply Hb].
Qed.

Lemma find_has_id (k : Z) (ts : list Task.t) :
  (exists x, find (has_id k) ts = Some x)
  <-> (exists x, In x ts /\ Task.id x = k).
Proof.
  split.
  - intros [x H]. apply find_some in H. exists x.
    destruct H as [H1 H2]. split; [exact H1|]. now apply Z.eqb_eq.
  - intros [x [H1 H2]]. destruct (find (has_id k) ts) as [y|] eqn:E; [now exists y|].
    exfalso. pose proof (find_none _ _ E x H1) as H. unfold has_id in H.
    apply Z.eqb_neq in H. contradiction.
Qed.

Lemma first_when_distinct (ts : list Task.t) (x : Task.t) :
  NoDup (map Task.id ts) -> In x ts ->
  exists before after,
    ts = before ++ x :: after
    /\ forall y, In y before -> Task.id y <> Task.id x.
Proof.
  intros Hnd Hin. destruct (in_split x ts Hin) as (before & after & ->).
  exists before, after. split; [reflexivity|].
  rewrite map_app in Hnd. cbn [map] in Hnd. apply NoDup_remove_2 in Hnd.
  intros y Hy E. apply Hnd. apply in_or_app. left.
  rewrite <- E. now apply in_map.
Qed.

(** C2. On a collection of tasks [complete_task] returns, and returns true
    exactly when a task has the id; when the task with the id (the first
    one, which the loop reaches; the only one where the ids are distinct)
    is not done, the collection is the same but for that task, now done,
    and the whole of it is written to the file before the call returns. *)
Theorem complete_task_finds_marks_and_saves :
  (forall (ts : list Task.t) (d : disk) (k : Z),
     exists (found : bool) (st' : store),
       complete_task {| tasks := collection ts; fs := d |} k = Ok (found, st')
       /\ (found = true <-> exists x, In x ts /\ Task.id x = k))
  /\
  (forall (before after : list Task.t) (x : Task.t) (d : disk) (k : Z),
     (forall y, In y before -> Task.id y <> k) ->
     Task.id x = k -> Task.isDone x = false ->
     let ts' := before ++ Task.done x :: after in
     complete_task {| tasks := collection (before ++ x :: after); fs := d |} k
     = Ok (true, {| tasks := collection ts';
                    fs := write (JSON.dump (collection ts')) d |})
     /\ (writing d = Writable ->
         file (write (JSON.dump (collection ts')) d)
         = Some (Text (JSON.dump (collection ts')))
         /\ trace (write (JSON.dump (collection ts')) d)
            = Wrote (JSON.dump (collection ts')) :: trace d))
  /\
  (forall (ts : list Task.t) (x : Task.t) (d : disk),
     NoDup (map Task.id ts) -> In x ts -> Task.isDone x = false ->
     exists before after,
       ts = before ++ x :: after
       /\ complete_task {| tasks := collection ts; fs := d |} (Task.id x)
          = Ok (true, save {| tasks := collection (before ++ Task.done x :: after);
                              fs := d |})).
Proof.
  split; [|split].
  - intros ts d k. rewrite complete_task_on_tasks.
    pose proof (find_has_id k ts) as Hf.
    destruct (find (has_id k) ts) as [x|] eqn:E.
    + assert (Hex : exists x, In x ts /\ Task.id x = k) by (apply Hf; now exists x).
      destruct (Task.isDone x); eexists; eexists; (split; [reflexivity|]);
        split; auto.
    + eexists; eexists; split; [reflexivity|].
      split; [discriminate|]. intro H. apply Hf in H. destruct H as [y H]. discriminate.
  - intros before after x d k Hb Hx Hd ts'.
    rewrite complete_task_on_tasks.
    destruct (find_first k before after x Hb Hx) as [-> ->].
    rewrite Hd. split; [reflexivity|].
    intro Hw. unfold write. rewrite Hw. now split.
  - intros ts x d Hnd Hin Hd.
    destruct (first_when_distinct ts x Hnd Hin) as (before & after & -> & Hb).
    exists before, after. split; [reflexivity|].
    rewrite complete_task_on_tasks.
    destruct (find_first (Task.id x) before after x Hb eq_refl) as [-> ->].
    now rewrite Hd.
Qed.

Lemma find_mark_done (k : Z) (ts : list Task.t) (x : Task.t) :
  find (has_id k) ts = Some x ->
  find (has_id k) (mark_done k ts) = Some (Task.done x).
Proof.
  intro H. destruct (find_split k ts x H) as (before & after & -> & Hb & Hx).
  destruct (find_first k before after x Hb Hx) as [_ ->].
  now apply (find_first k before after (Task.done x)).
Qed.

Lemma later_refl (ts : list Task.t) : Forall2 later ts ts.
Proof. induction ts; constructor; [repeat split; auto|assumption]. Qed.

Lemma later_mark_done (k : Z) (ts : list Task.t) : Forall2 later ts (mark_done k ts).
Proof.
  induction ts as [|x ts IH]; cbn [mark_done]; [constructor|].
  destruct (Task.id x =? k); constructor; try assumption.
  - repeat split; auto.
  - apply later_refl.
  - repeat split; auto.
Qed.

(** C3. Once [complete_task] has been called with the id of a task of the
    collection, another call with that id returns true and leaves the
    collection, the file and the trace of writes as they are; and no call
    changes a task but to turn [isDone] from false to true. *)
Theorem complete_task_twice :
  (forall (ts : list Task.t) (d : disk) (k : Z),
     (exists x, In x ts /\ Task.id x = k) ->
     exists st1 : store,
       complete_task {| tasks := collection ts; fs := d |} k = Ok (true, st1)
       /\ complete_task st1 k = Ok (true, st1))
  /\
  (forall (ts : list Task.t) (d : disk) (k : Z),
     exists (found : bool) (st' : store) (ts' : list Task.t),
       complete_task {| tasks := collection ts; fs := d |} k = Ok (found, st')
       /\ tasks st' = collection ts' /\ Forall2 later ts ts').
Proof.
  split.
  - intros ts d k Hex. apply find_has_id in Hex. destruct Hex as [x Hx].
    rewrite complete_task_on_tasks, Hx.
    destruct (Task.isDone x) eqn:Hd.
    + eexists; split; [reflexivity|].
      rewrite complete_task_on_tasks, Hx, Hd. reflexivity.
    + eexists; split; [reflexivity|].
      unfold save; cbn [tasks fs].
      rewrite complete_task_on_tasks, (find_mark_done k ts x Hx). reflexivity.
  - intros ts d k. rewrite complete_task_on_tasks.
    destruct (find (has_id k) ts) as [x|].
    + destruct (Task.isDone x).
      * exists true, {| tasks := collection ts; fs := d |}, ts.
        repeat split. apply later_refl.
      * eexists; eexists; exists (mark_done k ts).
        split; [reflexivity|]. split; [reflexivity|]. apply later_mark_done.
    + exists false, {| tasks := collection ts; fs := d |}, ts.
      repeat split. apply later_refl.
Qed.

Lemma complete_task_absent (ts : list Task.t) (d : disk) (k : Z) :
  (forall x, In x ts -> Task.id x <> k) ->
  complete_task {| tasks := collection ts; fs := d |} k
  = Ok (false, {| tasks := collection ts; fs := d |}).
Proof.
  intro H. rewrite complete_task_on_tasks.
  destruct (find (has_id k) ts) as [x|] eqn:E; [|reflexivity].
  exfalso. apply find_some in E. destruct E as [Hin Hid].
  apply (H x Hin). now apply Z.eqb_eq.
Qed.

(** C4. When no task of the collection has the id, [complete_task] returns
    false; the collection and the file are as before, and the file was not
    opened for writing. *)
Theorem complete_task_unknown_id :
  forall (ts : list Task.t) (d : disk) (k : Z),
    (forall x, In x ts -> Task.id x <> k) ->
    complete_task {| tasks := collection ts; fs := d |} k
    = Ok (false, {| tasks := collection ts; fs := d |}).
Proof.
  intros ts d k H. rewrite complete_task_on_tasks.
  destruct (find (has_id k) ts) as [x|] eqn:E; [|reflexivity].
  exfalso. apply find_some in E. destruct E as [Hin Hid].
  apply (H x Hin). now apply Z.eqb_eq.
Qed.

(** ** The file round trip: [json.loads] after [json.dump] *)

Local Open Scope string_scope.
Local Open Scope Z_scope.

Lemma append_assoc (a b c : string) : ((a ++ b) ++ c = a ++ b ++ c)%string.
Proof. induction a as [|x a IH]; cbn; [reflexivity|now rewrite IH]. Qed.

Lemma length_append (a b : string) :
  String.length (a ++ b) = (String.length a + String.length b)%nat.
Proof. induction a as [|x a IH]; cbn; [reflexivity|now rewrite IH]. Qed.

Lemma skip_ws_solid (s : string) : solid s -> JSON.skip_ws s = s.
Proof. destruct s as [|c r]; cbn; [tauto|]. now intros ->. Qed.

Lemma skip_ws_spaces (n : nat) (s : string) :
  JSON.skip_ws (JSON.spaces n ++ s) = JSON.skip_ws s.
Proof. induction n as [|n IH]; [reflexivity|exact IH]. Qed.

Lemma skip_ws_newline_indent (indent : option nat) (level : nat) (s : string) :
  JSON.skip_ws (JSON.newline_indent indent level ++ s) = JSON.skip_ws s.
Proof.
  destruct indent as [k|]; [|reflexivity].
  cbn [JSON.newline_indent]. apply (skip_ws_spaces (k * level)).
Qed.

(** *** Strings *)

Lemma scanstring_escape (c : ascii) (f : nat) (r : string) :
  JSON.scanstring (S f) (JSON.escape c ++ r)
  = JSON.smap (String c) (JSON.scanstring f r).
Proof. destruct c as [[] [] [] [] [] [] [] []]; reflexivity. Qed.

Lemma scanstring_encode_chars (s rest : string) :
  forall fuel : nat,
    (String.length s < fuel)%nat ->
    JSON.scanstring fuel (JSON.encode_chars s ++ String JSON.quote rest)
    = JSON.Scanned s rest.
Proof.
  induction s as [|c s IH]; intros [|f] H; cbn [String.length] in H; try lia.
  - reflexivity.
  - cbn [JSON.encode_chars]. rewrite append_assoc, scanstring_escape.
    rewrite IH by lia. reflexivity.
Qed.

Lemma escape_length (c : ascii) : (1 <= String.length (JSON.escape c))%nat.
Proof. destruct c as [[] [] [] [] [] [] [] []]; cbn; lia. Qed.

Lemma encode_chars_length (s : string) :
  (String.length s <= String.length (JSON.encode_chars s))%nat.
Proof.
  induction s as [|c s IH]; cbn [JSON.encode_chars String.length]; [lia|].
  rewrite length_append. pose proof (escape_length c). lia.
Qed.

(** *** Integers *)

Lemma digit_of_char (k : Z) :
  0 <= k < 10 -> JSON.digit (ascii_of_N (48 + Z.to_N k)) = Some k.
Proof.
  intro H.
  assert (E : k = 0 \/ k = 1 \/ k = 2 \/ k = 3 \/ k = 4 \/ k = 5 \/ k = 6
              \/ k = 7 \/ k = 8 \/ k = 9) by lia.
  repeat (destruct E as [->|E]; [reflexivity|]). subst k. reflexivity.
Qed.

Lemma decimal_append (fuel : nat) :
  forall (n : Z) (acc rest : string),
    (JSON.decimal fuel n acc ++ rest)%string = JSON.decimal fuel n (acc ++ rest).
Proof.
  induction fuel as [|f IH]; intros n acc rest; cbn [JSON.decimal]; [reflexivity|].
  destruct (n <? 10); [reflexivity|]. now rewrite IH.
Qed.

Lemma scan_natural_decimal (fuel : nat) :
  forall (n : Z) (acc : string),
    0 < n < 10 ^ Z.of_nat (S fuel) ->
    JSON.scan_natural (JSON.decimal fuel n acc) = Some (JSON.digits acc n).
Proof.
  induction fuel as [|f IH]; intros n acc H.
  - change (10 ^ Z.of_nat 1) with 10 in H.
    cbn [JSON.decimal JSON.scan_natural].
    rewrite Z.mod_small by lia. rewrite digit_of_char by lia.
    destruct n; try lia; reflexivity.
  - cbn [JSON.decimal]. destruct (Z.ltb_spec n 10) as [Hlt|Hge].
    + cbn [JSON.scan_natural]. rewrite Z.mod_small by lia.
      rewrite digit_of_char by lia. destruct n; try lia; reflexivity.
    + rewrite IH.
      * cbn [JSON.digits]. rewrite digit_of_char by (apply Z.mod_pos_bound; lia).
        f_equal. f_equal. pose proof (Z.div_mod n 10). lia.
      * split; [apply Z.div_str_pos; lia|].
        apply Z.div_lt_upper_bound; [lia|].
        rewrite Nat2Z.inj_succ, Z.pow_succ_r in H by lia. lia.
Qed.

Lemma log2_fuel (n : Z) : 0 < n -> n < 10 ^ Z.of_nat (S (Z.to_nat (Z.log2 n))).
Proof.
  intro H. pose proof (Z.log2_nonneg n) as Hl.
  rewrite Nat2Z.inj_succ, Z2Nat.id by exact Hl.
  destruct (Z.log2_spec n H) as [_ Hu].
  apply Z.lt_le_trans with (1 := Hu).
  apply Z.pow_le_mono_l. lia.
Qed.

Lemma digits_delimited (rest : string) (n : Z) :
  delimited rest = true -> JSON.digits rest n = (n, rest).
Proof.
  unfold delimited. destruct rest as [|c r]; [reflexivity|].
  cbn [JSON.starts_with_digit JSON.digits].
  destruct (JSON.digit c); cbn; [discriminate|reflexivity].
Qed.

Lemma scan_natural_nonneg (n : Z) (rest : string) :
  0 <= n -> delimited rest = true ->
  JSON.scan_natural (JSON.decimal (Z.to_nat (Z.log2 n)) n EmptyString ++ rest)
  = Some (n, rest).
Proof.
  intros Hn Hr. rewrite decimal_append. cbn [String.append].
  destruct (Z.eq_dec n 0) as [->|Hz].
  - reflexivity.
  - rewrite scan_natural_decimal by (split; [lia|apply log2_fuel; lia]).
    now rewrite digits_delimited.
Qed.

Lemma decimal_head (fuel : nat) :
  forall (n : Z) (acc : string),
    0 <= n ->
    exists k r, 0 <= k < 10
      /\ JSON.decimal fuel n acc = String (ascii_of_N (48 + Z.to_N k)) r.
Proof.
  induction fuel as [|f IH]; intros n acc H; cbn [JSON.decimal].
  - exists (n mod 10), acc. split; [apply Z.mod_pos_bound; lia|reflexivity].
  - destruct (n <? 10).
    + exists (n mod 10), acc. split; [apply Z.mod_pos_bound; lia|reflexivity].
    + apply IH. apply Z.div_pos; lia.
Qed.

Lemma scan_atom_digit (k : Z) (r : string) :
  0 <= k < 10 ->
  JSON.scan_atom (String (ascii_of_N (48 + Z.to_N k)) r)
  = JSON.scan_number (String (ascii_of_N (48 + Z.to_N k)) r).
Proof.
  intro H.
  assert (E : k = 0 \/ k = 1 \/ k = 2 \/ k = 3 \/ k = 4 \/ k = 5 \/ k = 6
              \/ k = 7 \/ k = 8 \/ k = 9) by lia.
  repeat (destruct E as [->|E]; [reflexivity|]). subst k. reflexivity.
Qed.

Lemma scan_number_digit (k : Z) (r : string) :
  0 <= k < 10 ->
  JSON.scan_number (String (ascii_of_N (48 + Z.to_N k)) r)
  = match JSON.scan_natural (String (ascii_of_N (48 + Z.to_N k)) r) with
    | Some (n, r') => if JSON.float_tail r' then JSON.Beyond else JSON.Scanned (JInt n) r'
    | None => JSON.Malformed
    end.
Proof.
  intro H.
  assert (E : k = 0 \/ k = 1 \/ k = 2 \/ k = 3 \/ k = 4 \/ k = 5 \/ k = 6
              \/ k = 7 \/ k = 8 \/ k = 9) by lia.
  repeat (destruct E as [->|E]; [reflexivity|]). subst k. reflexivity.
Qed.

Lemma delimited_float_tail (rest : string) :
  delimited rest = true -> JSON.float_tail rest = false.
Proof.
  unfold delimited. rewrite andb_true_iff, !negb_true_iff. tauto.
Qed.

Lemma scan_atom_int (n : Z) (rest : string) :
  delimited rest = true ->
  JSON.scan_atom (JSON.encode_int n ++ rest) = JSON.Scanned (JInt n) rest.
Proof.
  intro Hr. unfold JSON.encode_int. destruct (Z.ltb_spec n 0) as [Hneg|Hpos].
  - pose proof (scan_natural_nonneg (- n) rest ltac:(lia) Hr) as Hs.
    destruct (decimal_head (Z.to_nat (Z.log2 (- n))) (- n) EmptyString ltac:(lia))
      as (k & r & Hk & E).
    rewrite E in Hs |- *. cbn [String.append] in Hs |- *.
    assert (Ha : JSON.scan_atom (String "-" (String (ascii_of_N (48 + Z.to_N k)) (r ++ rest)))
                 = JSON.scan_number (String "-" (String (ascii_of_N (48 + Z.to_N k)) (r ++ rest)))).
    { assert (Ek : k = 0 \/ k = 1 \/ k = 2 \/ k = 3 \/ k = 4 \/ k = 5 \/ k = 6
              \/ k = 7 \/ k = 8 \/ k = 9) by lia.
      repeat (destruct Ek as [->|Ek]; [reflexivity|]). subst k. reflexivity. }
    rewrite Ha. unfold JSON.scan_number. cbn [Ascii.eqb Bool.eqb].
    rewrite Hs, (delimited_float_tail rest Hr). f_equal. f_equal. lia.
  - pose proof (scan_natural_nonneg n rest Hpos Hr) as Hs.
    destruct (decimal_head (Z.to_nat (Z.log2 n)) n EmptyString Hpos)
      as (k & r & Hk & E).
    rewrite E in Hs |- *. cbn [String.append] in Hs |- *.
    rewrite scan_atom_digit, scan_number_digit by exact Hk.
    rewrite Hs, (delimited_float_tail rest Hr). reflexivity.
Qed.

(** *** Values *)

Lemma json_ind (P : json -> Prop) :
  P JNull -> (forall b, P (JBool b)) -> (forall n, P (JInt n)) ->
  (forall s, P (JStr s)) ->
  (forall l, Forall P l -> P (JArr l)) ->
  (forall d, Forall (fun kv => P (snd kv)) d -> P (JObj d)) ->
  forall v, P v.
Proof.
  intros Hnull Hbool Hint Hstr Harr Hobj.
  fix IH 1. intros [ |b|n|s|l|d].
  - exact Hnull.
  - apply Hbool.
  - apply Hint.
  - apply Hstr.
  - apply Harr. induction l as [|x l IHl]; constructor; [apply IH|exact IHl].
  - apply Hobj. induction d as [|kv d IHd]; constructor; [apply IH|exact IHd].
Qed.

Lemma encode_int_head (n : Z) :
  exists c r, JSON.encode_int n = String c r
    /\ (c = "-"%char \/ exists k, 0 <= k < 10 /\ c = ascii_of_N (48 + Z.to_N k)).
Proof.
  unfold JSON.encode_int. destruct (Z.ltb_spec n 0) as [Hneg|Hpos].
  - eexists; eexists; split; [reflexivity|now left].
  - destruct (decimal_head (Z.to_nat (Z.log2 n)) n EmptyString Hpos)
      as (k & r & Hk & E).
    exists (ascii_of_N (48 + Z.to_N k)), r. split; [exact E|right; now exists k].
Qed.

Ltac each_digit k H :=
  let E := fresh "E" in
  assert (E : k = 0 \/ k = 1 \/ k = 2 \/ k = 3 \/ k = 4 \/ k = 5 \/ k = 6
              \/ k = 7 \/ k = 8 \/ k = 9) by lia;
  clear H;
  repeat (destruct E as [->|E]; [|]); [..|subst k].

Lemma encode_opens_value (v : json) (indent : option nat) (level : nat) (rest : string) :
  opens_value (JSON.encode indent level v ++ rest).
Proof.
  destruct v as [ |[|]|n|s|[|x l]|[|kx d]]; try (cbn; repeat split; reflexivity).
  cbn [JSON.encode]. destruct (encode_int_head n) as (c & r & -> & [->|(k & Hk & ->)]).
  - cbn; repeat split; reflexivity.
  - each_digit k Hk; cbn; repeat split; reflexivity.
Qed.

Lemma encode_string_opens (k s : string) : opens_value (JSON.encode_string k ++ s).
Proof. cbn. repeat split. Qed.

Lemma opens_value_solid (s : string) : opens_value s -> solid s.
Proof. destruct s; cbn; tauto. Qed.

Lemma skip_ws_encode (v : json) (indent : option nat) (level : nat) (rest : string) :
  JSON.skip_ws (JSON.encode indent level v ++ rest) = (JSON.encode indent level v ++ rest)%string.
Proof. apply skip_ws_solid, opens_value_solid, encode_opens_value. Qed.

Lemma scan_once_int (n : Z) (rest : string) (f : nat) :
  delimited rest = true ->
  JSON.scan_once (S f) (JSON.encode_int n ++ rest) = JSON.Scanned (JInt n) rest.
Proof.
  intro Hr. rewrite <- (scan_atom_int n rest Hr).
  destruct (encode_int_head n) as (c & r & -> & [->|(k & Hk & ->)]).
  - reflexivity.
  - each_digit k Hk; reflexivity.
Qed.

Lemma delimited_more (A : Type) (item : A -> string) (indent : option nat)
      (level : nat) (opening close rest : string) (xs : list A) :
  close = "]" \/ close = "}" ->
  delimited (JSON.encode_more A item (JSON.item_separator indent) opening
               (JSON.newline_indent indent level ++ close) xs ++ rest) = true.
Proof.
  intros [-> | ->]; destruct xs as [|y ys], indent as [k|]; reflexivity.
Qed.

Lemma weight_pos (v : json) : (1 <= weight v)%nat.
Proof. destruct v; cbn; lia. Qed.

Lemma separator_split (indent : option nat) :
  exists pad, JSON.item_separator indent = String "," pad
    /\ forall s, JSON.skip_ws (pad ++ s) = JSON.skip_ws s.
Proof.
  destruct indent as [k|].
  - exists EmptyString. now split.
  - exists " ". now split.
Qed.

Section Items.

Variables (indent : option nat) (level f : nat) (rest : string).

Lemma scan_items_encode :
  forall (xs : list json) (x : json) (fuel : nat),
    Forall round_trips (x :: xs) ->
    forallb well_keyed (x :: xs) = true ->
    (forall y, In y (x :: xs) -> weight y < f)%nat ->
    (List.length xs < fuel)%nat ->
    JSON.scan_items fuel (JSON.scan_once f)
      (JSON.encode indent (S level) x ++
       JSON.encode_more json (JSON.encode indent (S level))
         (JSON.item_separator indent) (JSON.newline_indent indent (S level))
         (JSON.newline_indent indent level ++ "]") xs ++ rest)
    = JSON.Scanned (x :: xs) rest.
Proof.
  induction xs as [|y ys IH]; intros x [|fuel] HP Hk Hw Hf;
    cbn [List.length] in Hf; try lia;
    cbn [JSON.scan_items];
    inversion HP as [|? ? Hx HP']; subst;
    cbn [forallb] in Hk; apply andb_true_iff in Hk; destruct Hk as [Hkx Hk];
    rewrite (Hx Hkx) by
      (first [apply Hw; now left | apply delimited_more; now left]).
  - cbn [JSON.encode_more]. rewrite append_assoc, skip_ws_newline_indent.
    reflexivity.
  - cbn [JSON.encode_more]. rewrite !append_assoc.
    destruct (separator_split indent) as (pad & Esep & Hpad).
    rewrite Esep at 1.
    cbn [String.append JSON.skip_ws JSON.whitespace N_of_ascii N_of_digits
         N.eqb Pos.eqb N.add N.mul Pos.add Pos.mul orb Ascii.eqb Bool.eqb].
    rewrite Hpad, skip_ws_newline_indent, skip_ws_encode.
    rewrite IH; [reflexivity|exact HP'|exact Hk| |lia].
    intros z Hz. apply Hw. now right.
Qed.

Lemma scan_members_encode :
  forall (xs : list (string * json)) (kx : string * json) (fuel : nat),
    Forall (fun kv => round_trips (snd kv)) (kx :: xs) ->
    forallb (fun kv => well_keyed (snd kv)) (kx :: xs) = true ->
    (forall ky, In ky (kx :: xs) -> weight (snd ky) < f)%nat ->
    (List.length xs < fuel)%nat ->
    JSON.scan_members fuel (JSON.scan_once f)
      (JSON.encode_string (fst kx) ++ ": " ++
       JSON.encode indent (S level) (snd kx) ++
       JSON.encode_more (string * json)
         (fun ky => JSON.encode_string (fst ky) ++ ": " ++
                    JSON.encode indent (S level) (snd ky))
         (JSON.item_separator indent) (JSON.newline_indent indent (S level))
         (JSON.newline_indent indent level ++ "}") xs ++ rest)
    = JSON.Scanned (kx :: xs) rest.
Proof.
  induction xs as [|ky ys IH]; intros [k x] [|fuel] HP Hk Hw Hf;
    cbn [List.length] in Hf; try lia;
    cbn [fst snd]; unfold JSON.encode_string at 1;
    cbn [String.append JSON.scan_members];
    rewrite Ascii.eqb_refl, !append_assoc;
    cbn [String.append];
    (rewrite scanstring_encode_chars
       by (rewrite length_append; pose proof (encode_chars_length k); lia));
    cbn [JSON.skip_ws JSON.whitespace N_of_ascii N_of_digits
         N.eqb Pos.eqb N.add N.mul Pos.add Pos.mul orb Ascii.eqb Bool.eqb];
    rewrite skip_ws_encode;
    inversion HP as [|? ? Hx HP']; subst; cbn [snd] in Hx;
    cbn [forallb snd] in Hk; apply andb_true_iff in Hk; destruct Hk as [Hkx Hk];
    rewrite (Hx Hkx) by
      (first [apply (Hw (k, x)); now left | apply delimited_more; now right]).
  - cbn [JSON.encode_more]. rewrite append_assoc, skip_ws_newline_indent.
    reflexivity.
  - cbn [JSON.encode_more]. rewrite !append_assoc.
    destruct (separator_split indent) as (pad & Esep & Hpad).
    rewrite Esep at 1.
    cbn [String.append JSON.skip_ws JSON.whitespace N_of_ascii N_of_digits
         N.eqb Pos.eqb N.add N.mul Pos.add Pos.mul orb Ascii.eqb Bool.eqb].
    rewrite Hpad, skip_ws_newline_indent.
    unfold JSON.encode_string at 1. cbn [String.append JSON.skip_ws JSON.whitespace
         N_of_ascii N_of_digits JSON.quote
         N.eqb Pos.eqb N.add N.mul Pos.add Pos.mul orb].
    change (String "034" (JSON.encode_chars (fst ky) ++ String JSON.quote EmptyString))%string
      with (JSON.encode_string (fst ky)) in IH.
    specialize (IH ky fuel HP' Hk (fun z Hz => Hw z (or_intror Hz)) ltac:(lia)).
    unfold JSON.encode_string at 1 in IH.
    cbn [String.append] in IH. rewrite !append_assoc in IH. cbn [String.append] in IH.
    rewrite !append_assoc. cbn [String.append].
    rewrite IH. reflexivity.
Qed.

End Items.

Lemma weight_in (l : list json) (y : json) :
  In y l -> (weight y <= list_sum (map weight l))%nat.
Proof.
  induction l as [|x l IH]; intros []; subst; unfold list_sum in *; cbn [map fold_right]; [lia|].
  specialize (IH H). lia.
Qed.

Lemma weight_in_members (d : list (string * json)) (ky : string * json) :
  In ky d -> (weight (snd ky) <= list_sum (map (fun kv => weight (snd kv)) d))%nat.
Proof.
  induction d as [|x d IH]; intros []; subst; unfold list_sum in *; cbn [map fold_right]; [lia|].
  specialize (IH H). lia.
Qed.

Lemma length_le_weights (A : Type) (w : A -> nat) (l : list A) :
  (forall x, 1 <= w x)%nat -> (List.length l <= list_sum (map w l))%nat.
Proof.
  intro H. unfold list_sum. induction l as [|x l IH]; cbn [List.length map fold_right]; [lia|].
  specialize (H x). lia.
Qed.

(** *** Dictionaries with distinct keys *)

Lemma dict_set_fresh (k : string) (v : json) (acc : list (string * json)) :
  fresh k acc = true -> Py.dict_set k v acc = (acc ++ [(k, v)])%list.
Proof.
  unfold fresh. induction acc as [|[k' v'] acc IH]; cbn [existsb Py.dict_set fst app];
    [reflexivity|].
  rewrite negb_true_iff, orb_false_iff. intros [-> H].
  rewrite IH; [reflexivity|]. now rewrite H.
Qed.

Lemma fresh_app (k : string) (a b : list (string * json)) :
  fresh k (a ++ b)%list = fresh k a && fresh k b.
Proof. unfold fresh. now rewrite existsb_app, negb_orb. Qed.

Lemma fold_dict_set (d : list (string * json)) :
  forall acc : list (string * json),
    distinct d = true ->
    (forall kv, In kv acc -> fresh (fst kv) d = true) ->
    fold_left (fun a kv => Py.dict_set (fst kv) (snd kv) a) d acc = (acc ++ d)%list.
Proof.
  induction d as [|[k v] d IH]; intros acc Hd Hacc; cbn [fold_left fst snd].
  - now rewrite app_nil_r.
  - cbn [distinct fst] in Hd. apply andb_true_iff in Hd. destruct Hd as [Hk Hd].
    assert (Hfresh : fresh k acc = true).
    { unfold fresh. rewrite negb_true_iff.
      destruct (existsb (fun kv => String.eqb k (fst kv)) acc) eqn:E; [|reflexivity].
      apply existsb_exists in E. destruct E as (kv & Hin & Heq).
      apply String.eqb_eq in Heq. specialize (Hacc kv Hin).
      unfold fresh in Hacc. cbn [existsb fst] in Hacc.
      rewrite <- Heq, String.eqb_refl in Hacc. discriminate. }
    rewrite (dict_set_fresh k v acc Hfresh), IH.
    + now rewrite <- app_assoc.
    + exact Hd.
    + intros kv Hin. apply in_app_or in Hin. destruct Hin as [Hin|[<-|[]]].
      * specialize (Hacc kv Hin). unfold fresh in Hacc |- *. cbn [existsb fst] in Hacc.
        rewrite negb_true_iff, orb_false_iff in Hacc. rewrite negb_true_iff. tauto.
      * exact Hk.
Qed.

Lemma dict_of_pairs_distinct (d : list (string * json)) :
  distinct d = true -> JSON.dict_of_pairs d = d.
Proof.
  intro H. unfold JSON.dict_of_pairs. rewrite fold_dict_set; [reflexivity|exact H|].
  intros kv [].
Qed.

(** *** Any value *)

Lemma scan_once_encode (v : json) : round_trips v.
Proof.
  induction v as [ |b|n|s|l IH|d IH] using json_ind;
    intros Hk indent level rest [|f] Hf Hd; try (cbn in Hf; lia).
  - reflexivity.
  - destruct b; reflexivity.
  - now apply scan_once_int.
  - cbn [JSON.encode]. unfold JSON.encode_string.
    cbn [String.append JSON.scan_once]. rewrite Ascii.eqb_refl, append_assoc.
    cbn [String.append].
    rewrite scanstring_encode_chars; [reflexivity|].
    rewrite length_append. pose proof (encode_chars_length s). lia.
  - destruct l as [|x xs]; [reflexivity|].
    cbn [JSON.encode]. rewrite !append_assoc.
    change ("[" ++ ?s)%string with (String "[" s).
    cbn [String.append JSON.scan_once Ascii.eqb Bool.eqb JSON.quote].
    rewrite skip_ws_newline_indent, skip_ws_encode.
    pose proof (encode_opens_value x indent (S level)
      (JSON.encode_more json (JSON.encode indent (S level))
         (JSON.item_separator indent) (JSON.newline_indent indent (S level))
         (JSON.newline_indent indent level ++ "]") xs ++ rest)) as Ho.
    pose proof (scan_items_encode indent level f rest xs x f IH) as Hs.
    cbn [weight] in Hf. cbn [well_keyed] in Hk.
    remember (JSON.encode indent (S level) x ++
              JSON.encode_more json (JSON.encode indent (S level))
                (JSON.item_separator indent) (JSON.newline_indent indent (S level))
                (JSON.newline_indent indent level ++ "]") xs ++ rest)%string
      as t eqn:Et.
    destruct t as [|c r]; [destruct Ho|]. destruct Ho as (_ & -> & _).
    rewrite Hs; [reflexivity| | |].
    + exact Hk.
    + intros y Hy. pose proof (weight_in (x :: xs) y Hy). lia.
    + pose proof (length_le_weights json weight (x :: xs) weight_pos) as Hl.
      cbn [List.length] in Hl. lia.
  - destruct d as [|kx xs]; [reflexivity|].
    cbn [JSON.encode]. rewrite !append_assoc.
    change ("{" ++ ?s)%string with (String "{" s).
    cbn [JSON.scan_once Ascii.eqb Bool.eqb JSON.quote].
    rewrite skip_ws_newline_indent.
    cbn [weight] in Hf. cbn [well_keyed] in Hk.
    apply andb_true_iff in Hk. destruct Hk as [Hdist Hk].
    pose proof (scan_members_encode indent level f rest xs kx f IH Hk) as Hs.
    match type of Hs with
    | _ -> _ -> JSON.scan_members _ _ ?t = _ =>
        pose proof (encode_string_opens (fst kx)
          (": " ++ JSON.encode indent (S level) (snd kx) ++
           JSON.encode_more (string * json)
             (fun ky => JSON.encode_string (fst ky) ++ ": " ++
                        JSON.encode indent (S level) (snd ky))
             (JSON.item_separator indent) (JSON.newline_indent indent (S level))
             (JSON.newline_indent indent level ++ "}") xs ++ rest)) as Ho;
        rewrite (skip_ws_solid t (opens_value_solid t Ho));
        remember t as u eqn:Eu
    end.
    destruct u as [|c r]; [destruct Ho|]. destruct Ho as (_ & _ & ->).
    rewrite Hs.
    + cbn [JSON.smap]. now rewrite dict_of_pairs_distinct.
    + intros ky Hy. pose proof (weight_in_members (kx :: xs) ky Hy). lia.
    + pose proof (length_le_weights _ (fun kv => weight (snd kv)) (kx :: xs)
                    (fun kv => weight_pos (snd kv))) as Hl.
      cbn [List.length] in Hl. lia.
Qed.

Lemma append_empty (s : string) : (s ++ EmptyString)%string = s.
Proof. induction s as [|c s IH]; cbn; [reflexivity|now rewrite IH]. Qed.

Lemma more_length (A : Type) (item : A -> string) (w : A -> nat)
      (separator opening closing : string) (xs : list A) :
  Forall (fun y => w y <= String.length (item y))%nat xs ->
  (list_sum (map w xs)
   <= String.length (JSON.encode_more A item separator opening closing xs))%nat.
Proof.
  unfold list_sum.
  induction 1 as [|y ys Hy _ IH]; cbn [map fold_right JSON.encode_more]; [lia|].
  rewrite !length_append. lia.
Qed.

Lemma weight_le_length (v : json) :
  forall (indent : option nat) (level : nat),
    (weight v <= String.length (JSON.encode indent level v))%nat.
Proof.
  induction v as [ |b|n|s|l IH|d IH] using json_ind; intros indent level.
  - cbn; lia.
  - destruct b; cbn; lia.
  - cbn [JSON.encode weight].
    destruct (encode_int_head n) as (c & r & -> & _). cbn; lia.
  - cbn; lia.
  - destruct l as [|x xs]; [cbn; lia|].
    inversion IH as [|? ? Hx Hxs]; subst.
    cbn [JSON.encode weight map]. unfold list_sum. cbn [fold_right].
    rewrite !length_append. cbn [String.length].
    pose proof (Hx indent (S level)).
    pose proof (more_length json (JSON.encode indent (S level)) weight
      (JSON.item_separator indent) (JSON.newline_indent indent (S level))
      (JSON.newline_indent indent level ++ "]") xs) as Hm.
    unfold list_sum in Hm. specialize (Hm ltac:(eapply Forall_impl; [|exact Hxs]; intros a Ha; apply Ha)).
    lia.
  - destruct d as [|kx xs]; [cbn; lia|].
    inversion IH as [|? ? Hx Hxs]; subst.
    cbn [JSON.encode weight map]. unfold list_sum. cbn [fold_right].
    rewrite !length_append. cbn [String.length].
    pose proof (Hx indent (S level)).
    pose proof (more_length (string * json)
      (fun ky => JSON.encode_string (fst ky) ++ ": " ++
                 JSON.encode indent (S level) (snd ky))%string
      (fun kv => weight (snd kv))
      (JSON.item_separator indent) (JSON.newline_indent indent (S level))
      (JSON.newline_indent indent level ++ "}") xs) as Hm.
    unfold list_sum in Hm.
    specialize (Hm ltac:(eapply Forall_impl; [|exact Hxs]; intros a Ha;
                         cbn beta; rewrite !length_append;
                         specialize (Ha indent (S level)); lia)).
    lia.
Qed.

(** A value whose dictionaries have distinct keys is read back from its
    encoding, compact or indented. *)
Lemma loads_encode (v : json) (indent : option nat) (level : nat) :
  well_keyed v = true ->
  JSON.loads (JSON.encode indent level v) = JSON.Value v.
Proof.
  intro Hk. unfold JSON.loads.
  rewrite <- (append_empty (JSON.encode indent level v)) at 2.
  rewrite skip_ws_encode.
  rewrite (scan_once_encode v Hk indent level EmptyString); [reflexivity| |reflexivity].
  pose proof (weight_le_length v indent level). lia.
Qed.

(** *** The scanner does not run out of steps *)

Lemma settled_smap {A B : Type} (f : A -> B) (s s' : string) (r : JSON.scanned A) :
  (String.length s' <= String.length s)%nat ->
  settled s' r -> settled s (JSON.smap f r).
Proof. destruct r; cbn; try tauto. lia. Qed.

Lemma skip_ws_length (s : string) :
  (String.length (JSON.skip_ws s) <= String.length s)%nat.
Proof.
  induction s as [|c s IH]; cbn [JSON.skip_ws String.length]; [lia|].
  destruct (JSON.whitespace c); cbn [String.length]; lia.
Qed.

Lemma hex4_length (s r : string) (cp : N) :
  JSON.hex4 s = Some (cp, r) -> String.length s = (4 + String.length r)%nat.
Proof.
  destruct s as [|a [|b [|c [|e s]]]]; try discriminate.
  cbn [JSON.hex4].
  destruct (JSON.hex_value a), (JSON.hex_value b), (JSON.hex_value c),
    (JSON.hex_value e); try discriminate.
  intro H. injection H as _ <-. reflexivity.
Qed.

Lemma scanstring_settled (fuel : nat) :
  forall s : string,
    (String.length s < fuel)%nat -> settled (String " " s) (JSON.scanstring fuel s).
Proof.
  induction fuel as [|f IH]; intros s H; [lia|].
  destruct s as [|c r]; [exact I|]. cbn [String.length] in H.
  cbn [JSON.scanstring].
  destruct (Ascii.eqb c JSON.quote); [cbn; lia|].
  destruct (Ascii.eqb c JSON.backslash).
  - destruct r as [|e r1]; [exact I|]. cbn [String.length] in H.
    destruct (Ascii.eqb e "u").
    + destruct (JSON.hex4 r1) as [[cp r2]|] eqn:E1; [|exact I].
      apply hex4_length in E1.
      destruct (JSON.high_surrogate cp).
      * destruct r2 as [|b [|u r3]]; try exact I.
        destruct (Ascii.eqb b JSON.backslash && Ascii.eqb u "u"); [|exact I].
        destruct (JSON.hex4 r3) as [[lo r4]|] eqn:E2; [|exact I].
        apply hex4_length in E2. cbn [String.length] in E1.
        destruct (JSON.low_surrogate lo); [|exact I].
        apply settled_smap with (s' := String " " r4);
          [cbn [String.length]; lia|apply IH; lia].
      * destruct (JSON.low_surrogate cp); [exact I|].
        apply settled_smap with (s' := String " " r2);
          [cbn [String.length]; lia|apply IH; lia].
    + destruct (JSON.unescape e); [|exact I].
      apply settled_smap with (s' := String " " r1);
        [cbn [String.length]; lia|apply IH; lia].
  - destruct (N_of_ascii c <? 32)%N; [exact I|].
    apply settled_smap with (s' := String " " r);
      [cbn [String.length]; lia|apply IH; lia].
Qed.

Lemma strip_prefix_length (p s r : string) :
  JSON.strip_prefix p s = Some r ->
  String.length s = (String.length p + String.length r)%nat.
Proof.
  revert s; induction p as [|a p IH]; intros s; cbn [JSON.strip_prefix].
  - intro H. injection H as ->. reflexivity.
  - destruct s as [|b s]; [discriminate|].
    destruct (Ascii.eqb a b); [|discriminate].
    intro H. apply IH in H. cbn [String.length]. lia.
Qed.

Lemma digits_length (s : string) :
  forall acc : Z, (String.length (snd (JSON.digits s acc)) <= String.length s)%nat.
Proof.
  induction s as [|c s IH]; intro acc; cbn [JSON.digits]; [cbn; lia|].
  destruct (JSON.digit c); [|cbn; lia].
  specialize (IH (10 * acc + z)). cbn [String.length]. lia.
Qed.

Lemma scan_natural_length (s r : string) (n : Z) :
  JSON.scan_natural s = Some (n, r) -> (String.length r < String.length s)%nat.
Proof.
  destruct s as [|c s]; [discriminate|]. cbn [JSON.scan_natural String.length].
  destruct (JSON.digit c) as [d|]; [|discriminate].
  pose proof (digits_length s d) as Hd.
  destruct d; intro H; injection H as H;
    [subst; lia|rewrite H in Hd; cbn [snd] in Hd; lia ..].
Qed.

Lemma scan_number_settled (s : string) : settled s (JSON.scan_number s).
Proof.
  unfold JSON.scan_number.
  destruct s as [|c r]; [exact I|].
  destruct (Ascii.eqb c "-").
  - destruct (JSON.scan_natural r) as [[n r']|] eqn:E; [|exact I].
    apply scan_natural_length in E.
    destruct (JSON.float_tail r'); [exact I|]. cbn [settled String.length]. lia.
  - destruct (JSON.scan_natural (String c r)) as [[n r']|] eqn:E; [|exact I].
    apply scan_natural_length in E.
    destruct (JSON.float_tail r'); [exact I|]. exact E.
Qed.

Lemma scan_atom_settled (s : string) : settled s (JSON.scan_atom s).
Proof.
  unfold JSON.scan_atom.
  repeat match goal with
  | |- context [JSON.strip_prefix ?p s] =>
      let E := fresh "E" in
      destruct (JSON.strip_prefix p s) eqn:E;
      [try exact I; apply strip_prefix_length in E; cbn [settled String.length] in *; lia|clear E]
  end.
  apply scan_number_settled.
Qed.

Section Steps.

Variables (value : string -> JSON.scanned json) (bound : nat).
Hypothesis value_settled :
  forall s, (String.length s < bound)%nat -> settled s (value s).

Lemma scan_items_settled (fuel : nat) :
  forall s : string,
    (String.length s < fuel)%nat -> (String.length s < bound)%nat ->
    settled s (JSON.scan_items fuel value s).
Proof.
  induction fuel as [|f IH]; intros s Hf Hb; [lia|].
  cbn [JSON.scan_items]. pose proof (value_settled s Hb) as Hv.
  destruct (value s) as [v rest| | |]; try exact Hv. cbn [settled] in Hv.
  pose proof (skip_ws_length rest) as Hw.
  destruct (JSON.skip_ws rest) as [|c r]; [exact I|]. cbn [String.length] in Hw.
  destruct (Ascii.eqb c "]"); [cbn [settled]; lia|].
  destruct (Ascii.eqb c ","); [|exact I].
  pose proof (skip_ws_length r) as Hw'.
  apply settled_smap with (s' := JSON.skip_ws r); [lia|].
  apply IH; lia.
Qed.

Lemma scan_members_settled (fuel : nat) :
  forall s : string,
    (String.length s < fuel)%nat -> (String.length s < bound)%nat ->
    settled s (JSON.scan_members fuel value s).
Proof.
  induction fuel as [|f IH]; intros s Hf Hb; [lia|].
  cbn [JSON.scan_members].
  destruct s as [|q r]; [exact I|]. cbn [String.length] in Hf, Hb.
  destruct (Ascii.eqb q JSON.quote); [|exact I].
  pose proof (scanstring_settled (S (String.length r)) r ltac:(lia)) as Hs.
  destruct (JSON.scanstring (S (String.length r)) r) as [key rest| | |];
    try exact Hs. cbn [settled String.length] in Hs.
  pose proof (skip_ws_length rest) as Hw.
  destruct (JSON.skip_ws rest) as [|c r1]; [exact I|]. cbn [String.length] in Hw.
  destruct (Ascii.eqb c ":"); [|exact I].
  pose proof (skip_ws_length r1) as Hw1.
  pose proof (value_settled (JSON.skip_ws r1) ltac:(lia)) as Hv.
  destruct (value (JSON.skip_ws r1)) as [v rest2| | |]; try exact Hv.
  cbn [settled] in Hv.
  pose proof (skip_ws_length rest2) as Hw2.
  destruct (JSON.skip_ws rest2) as [|c2 r2]; [exact I|]. cbn [String.length] in Hw2.
  destruct (Ascii.eqb c2 "}"); [cbn [settled String.length]; lia|].
  destruct (Ascii.eqb c2 ","); [|exact I].
  pose proof (skip_ws_length r2) as Hw3.
  apply settled_smap with (s' := JSON.skip_ws r2); [cbn [String.length]; lia|].
  apply IH; lia.
Qed.

End Steps.

Lemma scan_once_settled (fuel : nat) :
  forall s : string,
    (String.length s < fuel)%nat -> settled s (JSON.scan_once fuel s).
Proof.
  induction fuel as [|f IH]; intros s H; [lia|].
  destruct s as [|c r]; [exact I|]. cbn [String.length] in H.
  cbn [JSON.scan_once].
  destruct (Ascii.eqb c JSON.quote).
  { pose proof (scanstring_settled (S (String.length r)) r ltac:(lia)) as Hs.
    destruct (JSON.scanstring (S (String.length r)) r); exact Hs. }
  destruct (Ascii.eqb c "{").
  { pose proof (skip_ws_length r) as Hw.
    destruct (JSON.skip_ws r) as [|c' r']; [exact I|].
    destruct (Ascii.eqb c' "}"); [cbn [settled String.length] in *; lia|].
    apply settled_smap with (s' := String c' r'); [cbn [String.length] in *; lia|].
    apply scan_members_settled with (bound := f); [exact IH|lia|lia]. }
  destruct (Ascii.eqb c "[").
  { pose proof (skip_ws_length r) as Hw.
    destruct (JSON.skip_ws r) as [|c' r']; [exact I|].
    destruct (Ascii.eqb c' "]"); [cbn [settled String.length] in *; lia|].
    apply settled_smap with (s' := String c' r'); [cbn [String.length] in *; lia|].
    apply scan_items_settled with (bound := f); [exact IH|lia|lia]. }
  apply scan_atom_settled.
Qed.

(** The count of steps [loads] gives the scanner is enough for every text:
    where [loads] answers [JSONDecodeError], the text is malformed. *)
Lemma loads_never_exhausted (s : string) :
  JSON.scan_once (S (String.length s)) (JSON.skip_ws s) <> JSON.Exhausted.
Proof.
  pose proof (skip_ws_length s) as Hw.
  pose proof (scan_once_settled (S (String.length s)) (JSON.skip_ws s) ltac:(lia)) as H.
  intro E. rewrite E in H. exact H.
Qed.

Local Open Scope list_scope.
Local Open Scope Z_scope.

(** ** The handler *)

Lemma list_eqb_eq (a b : list string) : list_eqb a b = true <-> a = b.
Proof.
  revert b; induction a as [|x a IH]; intros [|y b]; cbn [list_eqb];
    try (split; [discriminate|congruence]); [now split|].
  rewrite andb_true_iff, String.eqb_eq, IH.
  split; [intros [-> ->]; reflexivity|intro H; injection H as -> ->; now split].
Qed.

Lemma do_POST_complete (st : store) (rq : request) (seg : string) :
  Py.split "/" (Py.strip "/" (path rq)) = ["tasks"; seg; "complete"] ->
  do_POST st rq = _handle_complete_task st seg.
Proof. intro H. unfold do_POST. rewrite H. reflexivity. Qed.

Lemma handle_POST (st : store) (rq : request) :
  command rq = "POST" ->
  handle st rq = (r <- do_POST st rq ;; Ok (Reply (fst r), snd r)).
Proof. intro H. unfold handle. rewrite H. reflexivity. Qed.

(** C8. A POST whose path has the three parts [tasks], a segment and
    [complete], the segment not one that [int] accepts, is answered with
    404 and an empty body, and the store is what it was: the same answer as
    to an integer that no task has for id. *)
Theorem complete_non_integer_is_404 :
  (forall (st : store) (rq : request) (seg : string),
     command rq = "POST" ->
     Py.split "/" (Py.strip "/" (path rq)) = ["tasks"; seg; "complete"] ->
     Py.int seg = None ->
     handle st rq = Ok (Reply (send_response 404), st))
  /\
  (forall (ts : list Task.t) (d : disk) (rq : request) (seg : string) (k : Z),
     command rq = "POST" ->
     Py.split "/" (Py.strip "/" (path rq)) = ["tasks"; seg; "complete"] ->
     Py.int seg = Some k ->
     (forall x, In x ts -> Task.id x <> k) ->
     handle {| tasks := collection ts; fs := d |} rq
     = Ok (Reply (send_response 404), {| tasks := collection ts; fs := d |})).
Proof.
  split.
  - intros st rq seg Hc Hp Hi.
    rewrite (handle_POST st rq Hc), (do_POST_complete st rq seg Hp).
    unfold _handle_complete_task. rewrite Hi. reflexivity.
  - intros ts d rq seg k Hc Hp Hi Hk.
    rewrite (handle_POST _ rq Hc), (do_POST_complete _ rq seg Hp).
    unfold _handle_complete_task. rewrite Hi.
    rewrite (complete_task_absent ts d k Hk). reflexivity.
Qed.

(** ** Saving and loading *)

Lemma well_keyed_collection (ts : list Task.t) :
  Forall (fun x => well_keyed (Task.title x) = true
                   /\ well_keyed (Task.priority x) = true) ts ->
  well_keyed (collection ts) = true.
Proof.
  unfold collection. cbn [well_keyed].
  induction 1 as [|x ts [Ht Hp] _ IH]; [reflexivity|].
  cbn [map forallb]. rewrite IH, andb_true_r.
  unfold Task.to_json. cbn [well_keyed forallb snd]. rewrite Ht, Hp.
  reflexivity.
Qed.

Lemma to_json_inj (x y : Task.t) : Task.to_json x = Task.to_json y -> x = y.
Proof.
  destruct x, y. unfold Task.to_json. cbn [Task.id Task.title Task.priority Task.isDone].
  intro H. injection H as -> -> -> ->. reflexivity.
Qed.

Lemma collection_inj (ts ts' : list Task.t) : collection ts = collection ts' -> ts = ts'.
Proof.
  unfold collection. intro H. injection H as H.
  revert ts' H; induction ts as [|x ts IH]; intros [|y ts'] H; cbn [map] in H;
    try discriminate; [reflexivity|].
  assert (Hx : Task.to_json x = Task.to_json y) by congruence.
  assert (Hts : map Task.to_json ts = map Task.to_json ts') by congruence.
  f_equal; [now apply to_json_inj|now apply IH].
Qed.

Lemma load_after_save (v : json) (d : disk) :
  well_keyed v = true -> writing d = Writable -> readable d = true ->
  let st := save {| tasks := v; fs := d |} in
  file (fs st) = Some (Text (JSON.dump v))
  /\ load st = Ok st
  /\ init (fs st) = Ok st.
Proof.
  intros Hk Hw Hr st. unfold st, save, init, load, write. cbn [tasks fs].
  rewrite Hw. cbn [file readable]. rewrite Hr.
  unfold JSON.dump. rewrite (loads_encode v (Some 2%nat) 0 Hk).
  repeat split.
Qed.

(** C5. A collection of tasks saved to a file that takes the write, and
    loaded from that file when it can be read, is the collection that was
    saved: the same tasks, with the same ids, titles, priorities and done
    flags, in the same order.  (Titles and priorities are Python values:
    the keys of a dictionary in them are distinct.) *)
Theorem save_then_load_is_identity :
  forall (ts : list Task.t) (d : disk),
    Forall (fun x => well_keyed (Task.title x) = true
                     /\ well_keyed (Task.priority x) = true) ts ->
    writing d = Writable -> readable d = true ->
    let st := save {| tasks := collection ts; fs := d |} in
    file (fs st) = Some (Text (JSON.dump (collection ts)))
    /\ load st = Ok st
    /\ init (fs st) = Ok st
    /\ tasks st = collection ts
    /\ (forall ts', tasks st = collection ts' -> ts' = ts).
Proof.
  intros ts d Hk Hw Hr st.
  destruct (load_after_save (collection ts) d (well_keyed_collection ts Hk) Hw Hr)
    as (Hf & Hl & Hi).
  repeat split; try assumption.
  intros ts' H. symmetry. now apply collection_inj.
Qed.

(** What [load] and [save] do pass over: a file that is not there, a file
    that cannot be opened or read, a text that is not JSON; a write that
    fails.  The tasks in memory are then the empty list, or what they
    were. *)
Lemma load_falls_back (st : store) :
  (file (fs st) = None -> load st = Ok (set_tasks st (JArr [])))
  /\ (readable (fs st) = false -> load st = Ok (set_tasks st (JArr [])))
  /\ (forall text, file (fs st) = Some (Text text) ->
                   JSON.loads text = JSON.JSONDecodeError ->
                   load st = Ok (set_tasks st (JArr []))).
Proof.
  unfold load. repeat split.
  - now intros ->.
  - intros ->. now destruct (file (fs st)).
  - intros text -> ->. now destruct (readable (fs st)).
Qed.

Lemma save_keeps_tasks (st : store) : tasks (save st) = tasks st.
Proof. reflexivity. Qed.

(** C6, at the input where the code departs from it: a file whose bytes
    are not UTF-8.  The read raises [UnicodeDecodeError], a [ValueError]
    that the clause [except (json.JSONDecodeError, IOError)] does not name,
    and the exception leaves [load] and [__init__]. *)
Theorem load_raises_on_undecodable_file :
  forall (v : json) (w : write_mode) (tr : list io_event),
    let d := {| file := Some Garbled; readable := true;
                writing := w; trace := tr |} in
    load {| tasks := v; fs := d |} = Raise UnicodeDecodeError
    /\ init d = Raise UnicodeDecodeError.
Proof. intros; split; reflexivity. Qed.

(** ** Requests *)

Lemma handle_GET (st : store) (rq : request) :
  command rq = "GET" ->
  handle st rq = (r <- do_GET st rq ;; Ok (Reply (fst r), snd r)).
Proof. intro H. unfold handle. rewrite H. reflexivity. Qed.



(** C7, at the inputs where the code departs from it.  A body that is JSON
    but not an object has no method [get]: the [AttributeError] leaves the
    handler and no response is written.  A body whose bytes [json.loads]
    cannot decode raises [UnicodeDecodeError], which is not the
    [JSONDecodeError] the handler answers with 400. *)
Theorem create_raises_on_body_that_is_no_object :
  forall st : store,
    handle st (POST "/tasks" "[]") = Raise AttributeError
    /\ handle st (POST "/tasks" "5") = Raise AttributeError
    /\ handle st (POST "/tasks" "null") = Raise AttributeError
    /\ handle st {| command := "POST"; path := "/tasks"; rfile := Undecodable |}
       = Raise UnicodeDecodeError.
Proof. intro st. repeat split. Qed.

Lemma list_eqb_neq (a b : list string) : a <> b -> list_eqb a b = false.
Proof.
  intro H. destruct (list_eqb a b) eqn:E; [|reflexivity].
  apply list_eqb_eq in E. contradiction.
Qed.

Lemma three_parts (parts : list string) :
  Nat.eqb (List.length parts) 3
  && String.eqb (nth 0 parts EmptyString) "tasks"
  && String.eqb (nth 2 parts EmptyString) "complete" = true ->
  parts = ["tasks"; nth 1 parts EmptyString; "complete"].
Proof.
  rewrite !andb_true_iff, Nat.eqb_eq, !String.eqb_eq.
  intros [[Hl H0] H2].
  destruct parts as [|a [|b [|c [|e parts]]]]; try discriminate.
  cbn [nth] in *. now subst.
Qed.

(** C9, as the code has it.  A GET for a path other than [/tasks] and a
    POST whose path, its slashes at both ends taken off, is neither [tasks]
    nor [tasks], a segment and [complete], are answered with 404 and
    nothing else; a request with another method gets the 501 of
    [BaseHTTPRequestHandler].  The store is what it was in the three
    cases. *)
Theorem other_requests :
  forall (st : store) (rq : request),
    (command rq = "GET" -> path rq <> "/tasks" ->
     handle st rq = Ok (Reply (send_response 404), st))
    /\
    (command rq = "POST" ->
     Py.split "/" (Py.strip "/" (path rq)) <> ["tasks"] ->
     (forall seg, Py.split "/" (Py.strip "/" (path rq)) <> ["tasks"; seg; "complete"]) ->
     handle st rq = Ok (Reply (send_response 404), st))
    /\
    (command rq <> "GET" -> command rq <> "POST" ->
     handle st rq = Ok (Unsupported, st)
     /\ reply_status Unsupported = 501).
Proof.
  intros st rq. split; [|split].
  - intros Hc Hp. rewrite (handle_GET st rq Hc). unfold do_GET.
    apply String.eqb_neq in Hp. rewrite Hp. reflexivity.
  - intros Hc H1 H3. rewrite (handle_POST st rq Hc). unfold do_POST.
    rewrite (list_eqb_neq _ _ H1).
    destruct (Nat.eqb (List.length (Py.split "/" (Py.strip "/" (path rq)))) 3
              && String.eqb (nth 0 (Py.split "/" (Py.strip "/" (path rq))) EmptyString) "tasks"
              && String.eqb (nth 2 (Py.split "/" (Py.strip "/" (path rq))) EmptyString) "complete")
      eqn:E; [|reflexivity].
    exfalso. apply three_parts in E. exact (H3 _ E).
  - intros Hg Hp. unfold handle. apply String.eqb_neq in Hg, Hp.
    now rewrite Hg, Hp.
Qed.

(** C9 as it is stated fails twice.  [PUT /tasks] is none of the three
    routes and gets 501, not 404.  [POST /tasks/], with a slash at the end,
    is not [POST /tasks] as the table writes it, and yet creates a task:
    the answer is 201 and the collection and the file have changed. *)
Lemma other_requests_not_all_404 :
  (~ in_table (PUT "/tasks" "{'title': 'x', 'priority': 'low'}")
   /\ handle empty_store (PUT "/tasks" "{'title': 'x', 'priority': 'low'}")
      = Ok (Unsupported, empty_store)
   /\ reply_status Unsupported <> 404)
  /\
  (~ in_table (POST "/tasks/" "{'title': 'Buy milk', 'priority': 'low'}")
   /\ handle empty_store (POST "/tasks/" "{'title': 'Buy milk', 'priority': 'low'}")
      = Ok (Reply (_send_json_response 201 (Task.to_json milk)),
            save {| tasks := collection [milk]; fs := blank |})
   /\ tasks (save {| tasks := collection [milk]; fs := blank |}) <> tasks empty_store
   /\ file (fs (save {| tasks := collection [milk]; fs := blank |})) <> file (fs empty_store)).
Proof.
  split.
  - split; [|split; [reflexivity|discriminate]].
    intros [[H _]|[[H _]|[H _]]]; discriminate.
  - split; [|split; [reflexivity|split; discriminate]].
    intros [[H _]|[[_ H]|[_ [seg H]]]]; try discriminate.
    cbn in H. injection H as H. destruct seg; discriminate.
Qed.

(** ** The invariants of the data model *)

Lemma max_existing_nonneg (ts : list Task.t) :
  Forall (fun x => 0 < Task.id x /\ Py.truthy (Task.title x) = true) ts ->
  0 <= max_existing ts.
Proof.
  intro H. destruct ts as [|y ts]; [reflexivity|].
  destruct (max_existing_greatest (y :: ts) y (or_introl eq_refl)) as [Hin _].
  apply in_map_iff in Hin. destruct Hin as (x & <- & Hx).
  rewrite Forall_forall in H. destruct (H x Hx). lia.
Qed.

Lemma data_model_create (ts : list Task.t) (title priority : json) :
  data_model ts -> Py.truthy title = true ->
  data_model (ts ++ [{| Task.id := max_existing ts + 1; Task.title := title;
                        Task.priority := priority; Task.isDone := false |}]).
Proof.
  intros [Hnd Hall] Ht. pose proof (max_existing_nonneg ts Hall) as Hm. split.
  - rewrite map_app. apply NoDup_app; [exact Hnd|repeat constructor; intros []|].
    intros a Ha [<-|[]]. apply in_map_iff in Ha. destruct Ha as (x & Hx & Hin).
    cbn [Task.id] in Hx.
    destruct (max_existing_greatest ts x Hin) as [_ Hle]. lia.
  - apply Forall_app. split; [exact Hall|].
    constructor; [|constructor]. cbn [Task.id Task.title]. split; [lia|exact Ht].
Qed.

Lemma mark_done_ids (k : Z) (ts : list Task.t) :
  map Task.id (mark_done k ts) = map Task.id ts
  /\ map Task.title (mark_done k ts) = map Task.title ts.
Proof.
  induction ts as [|x ts [IH1 IH2]]; cbn [mark_done map]; [now split|].
  destruct (Task.id x =? k); cbn [map]; [now split|].
  rewrite IH1, IH2. now split.
Qed.

Lemma data_model_mark_done (k : Z) (ts : list Task.t) :
  data_model ts -> data_model (mark_done k ts).
Proof.
  intros [Hnd Hall]. destruct (mark_done_ids k ts) as [Hi Ht]. split.
  - now rewrite Hi.
  - clear Hnd Hi Ht. induction Hall as [|x ts Hx Hts IH]; cbn [mark_done]; [constructor|].
    destruct (Task.id x =? k); constructor; assumption.
Qed.

Lemma complete_task_keeps_data_model (ts : list Task.t) (d : disk) (k : Z) :
  data_model ts ->
  exists (found : bool) (st' : store) (ts' : list Task.t),
    complete_task {| tasks := collection ts; fs := d |} k = Ok (found, st')
    /\ tasks st' = collection ts' /\ data_model ts'.
Proof.
  intro H. rewrite complete_task_on_tasks.
  destruct (find (has_id k) ts) as [x|].
  - destruct (Task.isDone x).
    + exists true, {| tasks := collection ts; fs := d |}, ts.
      split; [reflexivity|split; [reflexivity|exact H]].
    + eexists; eexists; exists (mark_done k ts).
      split; [reflexivity|]. split; [reflexivity|]. now apply data_model_mark_done.
  - exists false, {| tasks := collection ts; fs := d |}, ts.
    split; [reflexivity|split; [reflexivity|exact H]].
Qed.

Lemma handle_keeps_data_model (ts : list Task.t) (d : disk) (rq : request)
      (r : reply) (st' : store) :
  data_model ts ->
  handle {| tasks := collection ts; fs := d |} rq = Ok (r, st') ->
  exists ts', tasks st' = collection ts' /\ data_model ts'.
Proof.
  intros Hdm. unfold handle.
  destruct (String.eqb (command rq) "GET").
  { unfold do_GET. destruct (String.eqb (path rq) "/tasks"); cbn [bind fst snd];
      intro H; injection H as _ <-; exists ts; now split. }
  destruct (String.eqb (command rq) "POST");
    [|intro H; injection H as _ <-; exists ts; now split].
  unfold do_POST.
  destruct (list_eqb (Py.split "/" (Py.strip "/" (path rq))) ["tasks"]).
  { unfold _handle_create_task. destruct (rfile rq) as [|text]; [discriminate|].
    destruct (JSON.loads text) as [data| |]; [| |discriminate].
    - destruct (Py.get data "title") as [title| |]; try discriminate.
      destruct (Py.get data "priority") as [priority| |]; try discriminate.
      cbn [bind].
      destruct (Py.truthy title) eqn:Ht; cbn [negb orb];
        [|intro H; injection H as _ <-; exists ts; now split].
      destruct (Py.truthy priority); cbn [negb];
        [|intro H; injection H as _ <-; exists ts; now split].
      destruct (negb (Py.member priority [JStr "low"; JStr "normal"; JStr "high"]));
        [intro H; injection H as _ <-; exists ts; now split|].
      rewrite create_task_on_tasks. cbn [bind fst snd].
      intro H; injection H as _ <-. eexists. split; [reflexivity|].
      now apply data_model_create.
    - cbn [bind fst snd]. intro H; injection H as _ <-; exists ts; now split. }
  destruct (Nat.eqb _ 3 && _ && _);
    [|intro H; injection H as _ <-; exists ts; now split].
  unfold _handle_complete_task.
  destruct (Py.int _) as [k|];
    [|cbn [bind fst snd]; intro H; injection H as _ <-; exists ts; now split].
  destruct (complete_task_keeps_data_model ts d k Hdm) as (found & st1 & ts1 & -> & Ht & Hd).
  cbn [bind fst snd]. destruct found; cbn [bind fst snd];
    intro H; injection H as _ <-; exists ts1; now split.
Qed.

(** C10. [load] takes whatever value the text of the file is the JSON of:
    an object, a number, a list of objects that are no tasks, tasks with
    one id twice or with an id that is no integer.  On such a value
    [create_task] and [complete_task] raise, or go by the first of two
    tasks with the id.  From a collection of tasks with distinct positive
    ids and no empty title, [create_task] with a title that is not empty,
    [complete_task], and every request the handler answers, lead to such a
    collection again; the empty collection is one. *)
Theorem load_takes_any_value :
  (forall (st : store) (text : string) (v : json),
     file (fs st) = Some (Text text) -> readable (fs st) = true ->
     JSON.loads text = JSON.Value v ->
     load st = Ok (set_tasks st v))
  /\
  (loads_as "{'id': 7}" (JObj [("id", JInt 7)])
   /\ loads_as "5" (JInt 5)
   /\ loads_as "[{'name': 'x'}]" (JArr [JObj [("name", JStr "x")]])
   /\ loads_as "[{'id': 1, 'isDone': true}, {'id': 1, 'isDone': false}]"
        (JArr [JObj [("id", JInt 1); ("isDone", JBool true)];
               JObj [("id", JInt 1); ("isDone", JBool false)]])
   /\ loads_as "[{'id': 'a', 'isDone': false}]"
        (JArr [JObj [("id", JStr "a"); ("isDone", JBool false)]]))
  /\
  (forall (d : disk) (title priority : json),
     create_task {| tasks := JObj [("id", JInt 7)]; fs := d |} title priority
     = Raise TypeError
     /\ create_task {| tasks := JInt 5; fs := d |} title priority = Raise TypeError
     /\ create_task {| tasks := JArr [JObj [("name", JStr "x")]]; fs := d |}
          title priority = Raise KeyError
     /\ create_task
          {| tasks := JArr [JObj [("id", JStr "a"); ("isDone", JBool false)]];
             fs := d |} title priority = Raise TypeError
     /\ complete_task {| tasks := JArr [JObj [("name", JStr "x")]]; fs := d |} 1
        = Raise KeyError
     /\ complete_task
          {| tasks := JArr [JObj [("id", JInt 1); ("isDone", JBool true)];
                            JObj [("id", JInt 1); ("isDone", JBool false)]];
             fs := d |} 1
        = Ok (true,
              {| tasks := JArr [JObj [("id", JInt 1); ("isDone", JBool true)];
                                JObj [("id", JInt 1); ("isDone", JBool false)]];
                 fs := d |}))
  /\
  (forall (ts : list Task.t) (d : disk),
     data_model ts ->
     (forall title priority : json,
        Py.truthy title = true ->
        exists (x : Task.t) (st' : store),
          create_task {| tasks := collection ts; fs := d |} title priority
          = Ok (Task.to_json x, st')
          /\ tasks st' = collection (ts ++ [x]) /\ data_model (ts ++ [x]))
     /\ (forall k : Z,
           exists (found : bool) (st' : store) (ts' : list Task.t),
             complete_task {| tasks := collection ts; fs := d |} k = Ok (found, st')
             /\ tasks st' = collection ts' /\ data_model ts')
     /\ (forall (rq : request) (r : reply) (st' : store),
           handle {| tasks := collection ts; fs := d |} rq = Ok (r, st') ->
           exists ts', tasks st' = collection ts' /\ data_model ts'))
  /\ data_model [].
Proof.
  split; [|split; [|split; [|split]]].
  - intros st text v Hf Hr Hl. unfold load. now rewrite Hf, Hr, Hl.
  - repeat split.
  - intros d title priority. repeat split.
  - intros ts d Hdm. split; [|split].
    + intros title priority Ht. eexists; eexists.
      rewrite create_task_on_tasks. split; [reflexivity|].
      split; [reflexivity|]. now apply data_model_create.
    + intro k. now apply complete_task_keeps_data_model.
    + intros rq r st'. now apply handle_keeps_data_model.
  - split; constructor.
Qed.

(** ** The properties at given inputs *)

Lemma complete_task_finds_marks_and_saves_witness :
  let done := collection [Task.done milk] in
  complete_task {| tasks := collection [milk]; fs := blank |} 1
  = Ok (true, {| tasks := done; fs := write (JSON.dump done) blank |})
  /\ file (write (JSON.dump done) blank) = Some (Text (JSON.dump done)).
Proof.
  destruct (proj1 (proj2 complete_task_finds_marks_and_saves) [] [] milk blank 1)
    as [H1 H2].
  - intros y [].
  - reflexivity.
  - reflexivity.
  - split; [exact H1|exact (proj1 (H2 eq_refl))].
Defined.

Lemma complete_task_twice_witness :
  exists st1 : store,
    complete_task {| tasks := collection [milk]; fs := blank |} 1 = Ok (true, st1)
    /\ complete_task st1 1 = Ok (true, st1).
Proof.
  apply (proj1 complete_task_twice [milk] blank 1).
  exists milk. split; [left; reflexivity|reflexivity].
Defined.

Lemma complete_task_unknown_id_witness :
  complete_task {| tasks := collection [milk]; fs := blank |} 999
  = Ok (false, {| tasks := collection [milk]; fs := blank |}).
Proof.
  apply complete_task_unknown_id.
  intros x [<-|[]]. discriminate.
Defined.

Lemma save_then_load_is_identity_witness :
  let st := save {| tasks := collection [milk]; fs := blank |} in
  load st = Ok st /\ init (fs st) = Ok st /\ tasks st = collection [milk].
Proof.
  destruct (save_then_load_is_identity [milk] blank) as (_ & Hl & Hi & Ht & _).
  - constructor; [split; reflexivity|constructor].
  - reflexivity.
  - reflexivity.
  - split; [exact Hl|split; [exact Hi|exact Ht]].
Defined.

Lemma complete_non_integer_is_404_witness :
  handle empty_store (POST "/tasks/abc/complete" EmptyString)
  = Ok (Reply (send_response 404), empty_store)
  /\ handle {| tasks := collection [milk]; fs := blank |}
       (POST "/tasks/999/complete" EmptyString)
     = Ok (Reply (send_response 404), {| tasks := collection [milk]; fs := blank |}).
Proof.
  split.
  - apply (proj1 complete_non_integer_is_404 empty_store
             (POST "/tasks/abc/complete" EmptyString) "abc"); reflexivity.
  - apply (proj2 complete_non_integer_is_404 [milk] blank
             (POST "/tasks/999/complete" EmptyString) "999" 999);
      try reflexivity.
    intros x [<-|[]]. discriminate.
Defined.

Lemma other_requests_witness :
  handle empty_store (GET "/tasks/1") = Ok (Reply (send_response 404), empty_store)
  /\ handle empty_store (POST "/tasks/1" EmptyString)
     = Ok (Reply (send_response 404), empty_store)
  /\ handle empty_store (PUT "/tasks" EmptyString) = Ok (Unsupported, empty_store).
Proof.
  split; [|split].
  - apply (proj1 (other_requests empty_store (GET "/tasks/1")));
      [reflexivity|discriminate].
  - apply (proj1 (proj2 (other_requests empty_store (POST "/tasks/1" EmptyString))));
      [reflexivity|discriminate|intros seg; discriminate].
  - apply (proj2 (proj2 (other_requests empty_store (PUT "/tasks" EmptyString))));
      discriminate.
Defined.

Lemma load_takes_any_value_witness :
  load {| tasks := JArr []; fs := holding "5" |}
  = Ok {| tasks := JInt 5; fs := holding "5" |}
  /\ exists ts', tasks (save {| tasks := collection [milk]; fs := blank |})
                 = collection ts' /\ data_model ts'.
Proof.
  split.
  - apply (proj1 load_takes_any_value {| tasks := JArr []; fs := holding "5" |}
             (dq "5") (JInt 5)); reflexivity.
  - apply (proj2 (proj2 (proj1 (proj2 (proj2 (proj2 load_takes_any_value))) [] blank
             (proj2 (proj2 (proj2 (proj2 load_takes_any_value))))))
             (POST "/tasks" "{'title': 'Buy milk', 'priority': 'low'}")
             (Reply (_send_json_response 201 (Task.to_json milk)))).
    reflexivity.
Defined.

(** ** The scenarios of the specification *)

Example scenario_create :
  handle empty_store (POST "/tasks" "{'title':'Buy milk','priority':'low'}")
  = Ok (Reply {| status := 201; content_type := Some "application/json";
                 body := dq "{'id': 1, 'title': 'Buy milk', 'priority': 'low', 'isDone': false}" |},
        save {| tasks := collection [milk]; fs := blank |}).
Proof. reflexivity. Qed.

Example scenario_empty_title :
  handle empty_store (POST "/tasks" "{'title':'','priority':'low'}")
  = Ok (Reply {| status := 400; content_type := None;
                 body := "Missing title or priority" |}, empty_store).
Proof. reflexivity. Qed.

Example scenario_priority :
  handle empty_store (POST "/tasks" "{'title':'X','priority':'urgent'}")
  = Ok (Reply {| status := 400; content_type := None;
                 body := "Priority must be low, normal, or high" |}, empty_store).
Proof. reflexivity. Qed.

Example scenario_not_json :
  handle empty_store (POST "/tasks" "{'title':")
  = Ok (Reply {| status := 400; content_type := None; body := "Invalid JSON" |},
        empty_store).
Proof. reflexivity. Qed.

Example scenario_complete_then_list :
  let st := save {| tasks := collection [milk]; fs := blank |} in
  exists st',
    handle st (POST "/tasks/1/complete" EmptyString) = Ok (Reply (send_response 200), st')
    /\ handle st' (GET "/tasks")
       = Ok (Reply {| status := 200; content_type := Some "application/json";
                      body := dq "[{'id': 1, 'title': 'Buy milk', 'priority': 'low', 'isDone': true}]" |},
             st').
Proof. eexists. split; reflexivity. Qed.

Example scenario_unknown_id :
  handle empty_store (POST "/tasks/999/complete" EmptyString)
  = Ok (Reply (send_response 404), empty_store).
Proof. reflexivity. Qed.

Example scenario_file_text :
  file (fs (save {| tasks := collection [milk]; fs := blank |}))
  = Some (Text (String.concat (String JSON.newline EmptyString)
       [ "[";
         "  {";
         dq "    'id': 1,";
         dq "    'title': 'Buy milk',";
         dq "    'priority': 'low',";
         dq "    'isDone': false";
         "  }";
         "]" ])).
Proof. reflexivity. Qed.

Example int_examples :
  Py.int " -1_000 " = Some (-1000) /\ Py.int "abc" = None
  /\ Py.int EmptyString = None /\ Py.int "1__0" = None /\ Py.int "5_" = None
  /\ Py.int "007" = Some 7 /\ Py.int "+-1" = None /\ Py.int "1.0" = None.
Proof. repeat split. Qed.

Example loads_examples :
  JSON.loads (dq "{'a': 1, 'b': [true, null], 'a': 'x'}")
  = JSON.Value (JObj [("a", JStr "x"); ("b", JArr [JBool true; JNull])])
  /\ JSON.loads "[1, ]" = JSON.JSONDecodeError
  /\ JSON.loads "01" = JSON.JSONDecodeError
  /\ JSON.loads " -0 " = JSON.Value (JInt 0)
  /\ JSON.loads EmptyString = JSON.JSONDecodeError
  /\ JSON.loads "[1.5]" = JSON.Outside.
Proof. repeat split. Qed.

(** * More of the program *)

(** ** The store beyond collections of tasks *)

Lemma max_id_on_int_ids (items : list json) (ns : list Z) :
  Forall2 has_int_id items ns ->
  forall m : Z,
    max_id items (Some (JInt m)) = Ok (JInt (fold_left Z.max ns m)).
Proof.
  induction 1 as [|it n items' ns' (d & -> & Hd) _ IH]; intro m; [reflexivity|].
  cbn [max_id fold_left]. unfold Py.getitem. rewrite Hd.
  cbn [bind Py.gt Py.num].
  replace (if n >? m then JInt n else JInt m) with (JInt (Z.max m n))
    by (destruct (Z.gtb_spec n m); f_equal; lia).
  apply IH.
Qed.

Lemma max_id_greatest (items : list json) (ns : list Z) :
  Forall2 has_int_id items ns ->
  max_id items None = Ok (JInt (greatest ns)).
Proof.
  intros [|it n items' ns' (d & -> & Hd) H]; [reflexivity|].
  cbn [max_id greatest]. unfold Py.getitem. rewrite Hd. cbn [bind].
  now apply max_id_on_int_ids.
Qed.

Lemma greatest_upper (ns : list Z) (n : Z) : In n ns -> n <= greatest ns.
Proof.
  destruct ns as [|m ns]; [intros []|]. intro H. now apply fold_max_upper.
Qed.

(** X1. [create_task] asks of [self.tasks] only that it is a list of
    dictionaries with an integer under [id]: whatever else the
    dictionaries hold or lack, the call returns, the new id is the greatest
    of those integers (0 for the empty list) plus 1, above every id there
    is, and the task goes to the end of the list, which is saved. *)
Theorem create_task_on_integer_ids :
  forall (items : list json) (ns : list Z) (d : disk) (title priority : json),
    Forall2 has_int_id items ns ->
    let task := JObj [("id", JInt (greatest ns + 1)); ("title", title);
                      ("priority", priority); ("isDone", JBool false)] in
    create_task {| tasks := JArr items; fs := d |} title priority
    = Ok (task, save {| tasks := JArr (items ++ [task]); fs := d |})
    /\ forall n, In n ns -> n < greatest ns + 1.
Proof.
  intros items ns d title priority H task. split.
  - unfold create_task. cbn [tasks Py.iter bind].
    rewrite (max_id_greatest items ns H). reflexivity.
  - intros n Hn. pose proof (greatest_upper ns n Hn). lia.
Qed.

Lemma complete_loop_stops (before : list Task.t) (x : Task.t) (after : list json) (k : Z) :
  (forall y, In y before -> Task.id y <> k) -> Task.id x = k ->
  complete_loop (map Task.to_json before ++ Task.to_json x :: after) k
  = Ok (if Task.isDone x then FoundDone
        else Marked (map Task.to_json before ++ Task.to_json (Task.done x) :: after)).
Proof.
  intros Hb Hx. induction before as [|y before IH]; cbn [map app complete_loop].
  - rewrite getitem_id. cbn [bind Py.eq]. subst k. rewrite Z.eqb_refl.
    rewrite getitem_isDone. cbn [bind Py.truthy].
    destruct (Task.isDone x); cbn [negb]; [reflexivity|].
    rewrite setitem_isDone. reflexivity.
  - rewrite getitem_id. cbn [bind Py.eq].
    destruct (Z.eqb_spec (Task.id y) k) as [E|_];
      [exfalso; apply (Hb y); [now left|exact E]|].
    rewrite IH by (intros z Hz; apply Hb; now right). cbn [bind].
    destruct (Task.isDone x); reflexivity.
Qed.

Lemma complete_loop_raises (before : list Task.t) (bad : json) (after : list json)
      (k : Z) (e : exn) :
  (forall y, In y before -> Task.id y <> k) ->
  Py.getitem bad "id" = Raise e ->
  complete_loop (map Task.to_json before ++ bad :: after) k = Raise e.
Proof.
  intros Hb Hbad. induction before as [|y before IH]; cbn [map app complete_loop].
  - now rewrite Hbad.
  - rewrite getitem_id. cbn [bind Py.eq].
    destruct (Z.eqb_spec (Task.id y) k) as [E|_];
      [exfalso; apply (Hb y); [now left|exact E]|].
    rewrite IH by (intros z Hz; apply Hb; now right). reflexivity.
Qed.

(** X2. The loop of [complete_task] returns at the first task with the id:
    what stands after it in the list, task or not, is not looked at and is
    kept as it is.  An item before it that has no [id] to read makes the
    call raise. *)
Theorem complete_task_stops_at_first_match :
  (forall (before : list Task.t) (x : Task.t) (after : list json) (d : disk) (k : Z),
     (forall y, In y before -> Task.id y <> k) -> Task.id x = k ->
     let st := {| tasks := JArr (map Task.to_json before ++ Task.to_json x :: after);
                  fs := d |} in
     complete_task st k
     = Ok (true,
           if Task.isDone x then st
           else save {| tasks := JArr (map Task.to_json before
                                       ++ Task.to_json (Task.done x) :: after);
                        fs := d |}))
  /\
  (forall (before : list Task.t) (bad : json) (after : list json) (d : disk)
          (k : Z) (e : exn),
     (forall y, In y before -> Task.id y <> k) ->
     Py.getitem bad "id" = Raise e ->
     complete_task {| tasks := JArr (map Task.to_json before ++ bad :: after);
                      fs := d |} k
     = Raise e).
Proof.
  split.
  - intros before x after d k Hb Hx st. unfold complete_task, st.
    cbn [tasks Py.iter bind]. rewrite (complete_loop_stops before x after k Hb Hx).
    cbn [bind]. destruct (Task.isDone x); reflexivity.
  - intros before bad after d k e Hb Hbad. unfold complete_task.
    cbn [tasks Py.iter bind]. rewrite (complete_loop_raises before bad after k e Hb Hbad).
    reflexivity.
Qed.

(** X3. After any calls of [create_task], [get_all] gives the tasks that
    were there, then one task for each call, in the order of the calls,
    with the title and the priority of the call and not done. *)
Theorem get_all_after_creates :
  forall (ts : list Task.t) (d : disk) (args : list (json * json)),
    exists (new : list Task.t) (st' : store),
      create_all {| tasks := collection ts; fs := d |} args
      = Ok (map Task.to_json new, st')
      /\ get_all st' = collection (ts ++ new)
      /\ List.length new = List.length args
      /\ map Task.title new = map fst args
      /\ map Task.priority new = map snd args
      /\ Forall (fun x => Task.isDone x = false) new.
Proof.
  intros ts d args.
  destruct (create_all_from args d ts) as (new & st' & E & Ht & Hid & Htitle & Hprio & Hdone).
  exists new, st'. repeat split; try assumption.
  rewrite <- (length_map Task.title new), Htitle. apply length_map.
Qed.

(** ** The answers of the handler *)


Lemma well_keyed_member (k : string) (d : list (string * json)) (v : json) :
  forallb (fun kv => well_keyed (snd kv)) d = true ->
  Py.dict_get k d = Some v -> well_keyed v = true.
Proof.
  induction d as [|[k' v'] d IH]; cbn [forallb Py.dict_get snd]; [discriminate|].
  rewrite andb_true_iff. intros [Hv Hd].
  destruct (String.eqb k k'); [intro H; now injection H as <-|now apply IH].
Qed.




(** *** Slashes at the ends of the path *)

Lemma rstrip_snoc (c : ascii) (s : string) :
  Py.rstrip c (s ++ String c EmptyString)%string = Py.rstrip c s.
Proof.
  induction s as [|a s IH]; cbn [String.append Py.rstrip].
  - now rewrite Ascii.eqb_refl.
  - now rewrite IH.
Qed.

Lemma strip_snoc (c : ascii) (s : string) :
  Py.strip c (s ++ String c EmptyString)%string = Py.strip c s.
Proof.
  unfold Py.strip. induction s as [|a s IH]; cbn [String.append Py.lstrip].
  - now rewrite Ascii.eqb_refl.
  - destruct (Ascii.eqb a c); [exact IH|].
    apply (rstrip_snoc c (String a s)).
Qed.

Lemma strip_cons (c : ascii) (s : string) :
  Py.strip c (String c s) = Py.strip c s.
Proof. unfold Py.strip. cbn [Py.lstrip]. now rewrite Ascii.eqb_refl. Qed.

Lemma do_POST_by_stripped_path (st : store) (rq rq' : request) :
  Py.strip "/" (path rq) = Py.strip "/" (path rq') -> rfile rq = rfile rq' ->
  do_POST st rq = do_POST st rq'.
Proof.
  intros Hp Hb. unfold do_POST, _handle_create_task. now rewrite Hp, Hb.
Qed.

(** X7. [do_POST] takes the slashes off both ends of the path before it
    looks at it: a POST is answered the same, and does the same to the
    store, with one more slash before the path or after it. *)
Theorem post_ignores_outer_slashes :
  forall (st : store) (rq : request) (p : string),
    command rq = "POST" ->
    path rq = String "/" p \/ path rq = (p ++ "/")%string ->
    handle st rq
    = handle st {| command := "POST"; path := p; rfile := rfile rq |}.
Proof.
  intros st rq p Hc Hp.
  rewrite (handle_POST st rq Hc).
  rewrite (handle_POST st {| command := "POST"; path := p; rfile := rfile rq |} eq_refl).
  f_equal. apply do_POST_by_stripped_path; [|reflexivity]. cbn [path].
  destruct Hp as [-> | ->]; [apply strip_cons|apply strip_snoc].
Qed.

(** *** What is answered, and what an answer leaves *)

Lemma complete_task_false (st st' : store) (k : Z) :
  complete_task st k = Ok (false, st') -> st' = st.
Proof.
  unfold complete_task. destruct (Py.iter (tasks st)) as [items| |]; try discriminate.
  cbn [bind]. destruct (complete_loop items k) as [[ | |items']| |]; try discriminate;
    cbn [bind]; intro H; now injection H.
Qed.

Lemma complete_task_steps (st st' : store) (k : Z) (b : bool) :
  complete_task st k = Ok (b, st') ->
  st' = st \/ exists v, st' = save (set_tasks st v).
Proof.
  unfold complete_task. destruct (Py.iter (tasks st)) as [items| |]; try discriminate.
  cbn [bind]. destruct (complete_loop items k) as [[ | |items']| |]; try discriminate;
    cbn [bind]; intro H; injection H as _ <-; [now left|now left|].
  right. now exists (JArr items').
Qed.

Lemma create_task_steps (st st' : store) (title priority task : json) :
  create_task st title priority = Ok (task, st') ->
  exists v, st' = save (set_tasks st v).
Proof.
  unfold create_task.
  destruct (Py.iter (tasks st)) as [items| |]; try discriminate. cbn [bind].
  destruct (max_id items None) as [m| |]; try discriminate. cbn [bind].
  destruct (Py.add1 m) as [new_id| |]; try discriminate. cbn [bind].
  destruct (Py.append (tasks st) _) as [tasks'| |]; try discriminate. cbn [bind].
  intro H. injection H as _ <-. now exists tasks'.
Qed.

(** The ways [handle] ends with an answer of the handler. *)
Lemma handle_cases (st st' : store) (rq : request) (r : response) :
  handle st rq = Ok (Reply r, st') ->
  (command rq = "GET" /\ st' = st /\ (status r = 200 \/ status r = 404))
  \/ (command rq = "POST" /\ st' = st /\ (status r = 400 \/ status r = 404))
  \/ (command rq = "POST" /\ status r = 201
      /\ exists v, st' = save (set_tasks st v))
  \/ (command rq = "POST" /\ status r = 200
      /\ (st' = st \/ exists v, st' = save (set_tasks st v))).
Proof.
  unfold handle.
  destruct (String.eqb_spec (command rq) "GET") as [Hg|_].
  { unfold do_GET. destruct (String.eqb (path rq) "/tasks"); cbn [bind fst snd];
      intro H; injection H as <- <-; left; cbn [status send_response _send_json_response];
      auto. }
  destruct (String.eqb_spec (command rq) "POST") as [Hp|_]; [|discriminate].
  unfold do_POST.
  destruct (list_eqb (Py.split "/" (Py.strip "/" (path rq))) ["tasks"%string]).
  { unfold _handle_create_task. destruct (rfile rq) as [|text]; [discriminate|].
    destruct (JSON.loads text) as [data| |]; [| |discriminate].
    - destruct (Py.get data "title") as [title| |]; try discriminate.
      destruct (Py.get data "priority") as [priority| |]; try discriminate.
      cbn [bind].
      destruct (negb (Py.truthy title) || negb (Py.truthy priority));
        [cbn [bind fst snd]; intro H; injection H as <- <-; right; left; cbn; auto|].
      destruct (negb (Py.member priority [JStr "low"; JStr "normal"; JStr "high"]));
        [cbn [bind fst snd]; intro H; injection H as <- <-; right; left; cbn; auto|].
      destruct (create_task st title priority) as [[task st1]| |] eqn:E;
        try discriminate.
      cbn [bind fst snd]. intro H; injection H as <- <-. right. right. left.
      split; [exact Hp|]. split; [reflexivity|].
      exact (create_task_steps st st1 title priority task E).
    - cbn [bind fst snd]. intro H; injection H as <- <-. right. left. cbn; auto. }
  destruct (Nat.eqb _ 3 && _ && _);
    [|cbn [bind fst snd]; intro H; injection H as <- <-; right; left; cbn; auto].
  unfold _handle_complete_task.
  destruct (Py.int _) as [k|];
    [|cbn [bind fst snd]; intro H; injection H as <- <-; right; left; cbn; auto].
  destruct (complete_task st k) as [[b st1]| |] eqn:E; try discriminate.
  cbn [bind fst snd]. destruct b; cbn [bind fst snd]; intro H; injection H as <- <-.
  - right. right. right. split; [exact Hp|]. split; [reflexivity|].
    exact (complete_task_steps st st1 k true E).
  - right. left. rewrite (complete_task_false st st1 k E). cbn; auto.
Qed.

(** X8. The handler answers with 200, 201, 400 or 404 and nothing else;
    after a 400 or a 404, and after any GET, the store is the one the
    request found (tasks, file and trace of writes); a 201 comes to a POST
    only. *)
Theorem answers_and_what_they_leave :
  forall (st st' : store) (rq : request) (r : response),
    handle st rq = Ok (Reply r, st') ->
    In (status r) [200; 201; 400; 404]
    /\ (status r = 400 \/ status r = 404 -> st' = st)
    /\ (command rq = "GET" -> st' = st)
    /\ (status r = 201 -> command rq = "POST").
Proof.
  intros st st' rq r H.
  destruct (handle_cases st st' rq r H)
    as [(Hc & Hs & [E|E])|[(Hc & Hs & [E|E])|[(Hc & E & Hs)|(Hc & E & Hs)]]];
    rewrite E; cbn [In]; (split; [auto 6|]);
    (split; [intros [?|?]; try discriminate; assumption|]);
    (split; [intro Hg; try assumption; rewrite Hc in Hg; discriminate|]);
    intro; try discriminate; assumption.
Qed.


(** ** The id in the path *)

Lemma int_char_plain (c : ascii) :
  int_char c = true ->
  Py.space c = false /\ Ascii.eqb c "/" = false /\ Ascii.eqb c "+" = false.
Proof.
  destruct c as [[] [] [] [] [] [] [] []]; cbv; intro H;
    try discriminate H; repeat split.
Qed.

Lemma decimal_int_chars (fuel : nat) :
  forall (n : Z) (acc : string),
    0 <= n -> all_chars int_char acc = true ->
    all_chars int_char (JSON.decimal fuel n acc) = true.
Proof.
  assert (Hd : forall k, 0 <= k < 10 -> int_char (ascii_of_N (48 + Z.to_N k)) = true).
  { intros k Hk. unfold int_char. now rewrite digit_of_char. }
  induction fuel as [|f IH]; intros n acc Hn Ha; cbn [JSON.decimal].
  - cbn [all_chars]. rewrite Hd, Ha by (apply Z.mod_pos_bound; lia). reflexivity.
  - destruct (n <? 10).
    + cbn [all_chars]. rewrite Hd, Ha by (apply Z.mod_pos_bound; lia). reflexivity.
    + apply IH; [apply Z.div_pos; lia|].
      cbn [all_chars]. rewrite Hd, Ha by (apply Z.mod_pos_bound; lia). reflexivity.
Qed.

Lemma encode_int_chars (n : Z) : all_chars int_char (JSON.encode_int n) = true.
Proof.
  unfold JSON.encode_int. destruct (Z.ltb_spec n 0).
  - cbn [all_chars]. rewrite decimal_int_chars by (reflexivity || lia). reflexivity.
  - apply decimal_int_chars; [lia|reflexivity].
Qed.

Lemma lstrip_space_plain (s : string) :
  all_chars int_char s = true -> Py.lstrip_space s = s.
Proof.
  destruct s as [|c r]; [reflexivity|]. cbn [all_chars Py.lstrip_space].
  rewrite andb_true_iff. intros [Hc _].
  destruct (int_char_plain c Hc) as (-> & _). reflexivity.
Qed.

Lemma rstrip_space_plain (s : string) :
  all_chars int_char s = true -> Py.rstrip_space s = s.
Proof.
  induction s as [|c r IH]; [reflexivity|]. cbn [all_chars Py.rstrip_space].
  rewrite andb_true_iff. intros [Hc Hr]. rewrite (IH Hr).
  destruct (int_char_plain c Hc) as (-> & _). now destruct r.
Qed.

Lemma int_digits_decimal (fuel : nat) :
  forall (n : Z) (acc : string) (st : Py.int_state),
    0 <= n < 10 ^ Z.of_nat (S fuel) ->
    Py.int_digits (JSON.decimal fuel n acc) st 0 = Py.int_digits acc Py.AfterDigit n.
Proof.
  assert (Hd : forall k, 0 <= k < 10 -> Py.digit (ascii_of_N (48 + Z.to_N k)) = Some k)
    by exact digit_of_char.
  induction fuel as [|f IH]; intros n acc st Hn.
  - change (10 ^ Z.of_nat 1) with 10 in Hn. cbn [JSON.decimal Py.int_digits].
    rewrite Z.mod_small, Hd by lia. f_equal; lia.
  - cbn [JSON.decimal]. destruct (Z.ltb_spec n 10) as [Hlt|Hge].
    + cbn [Py.int_digits]. rewrite Z.mod_small, Hd by lia. f_equal; lia.
    + rewrite IH.
      * cbn [Py.int_digits]. rewrite Hd by (apply Z.mod_pos_bound; lia).
        f_equal. pose proof (Z.div_mod n 10). lia.
      * split; [apply Z.div_pos; lia|].
        apply Z.div_lt_upper_bound; [lia|].
        rewrite Nat2Z.inj_succ, Z.pow_succ_r in Hn by lia. lia.
Qed.

Lemma int_digits_nonneg (n : Z) :
  0 <= n ->
  Py.int_digits (JSON.decimal (Z.to_nat (Z.log2 n)) n EmptyString) Py.AtStart 0
  = Some n.
Proof.
  intro Hn. rewrite int_digits_decimal; [reflexivity|].
  destruct (Z.eq_dec n 0) as [->|Hz]; [split; [lia|reflexivity]|].
  split; [lia|apply log2_fuel; lia].
Qed.

(** [int(str(n))] is [n]. *)
Lemma int_encode_int (n : Z) : Py.int (JSON.encode_int n) = Some n.
Proof.
  unfold Py.int.
  rewrite (lstrip_space_plain _ (encode_int_chars n)).
  rewrite (rstrip_space_plain _ (encode_int_chars n)).
  pose proof (encode_int_chars n) as Hc. unfold JSON.encode_int in Hc |- *.
  destruct (Z.ltb_spec n 0) as [Hneg|Hpos].
  - rewrite int_digits_nonneg by lia. cbn [option_map]. f_equal. lia.
  - pose proof (int_digits_nonneg n Hpos) as Hi.
    destruct (JSON.decimal (Z.to_nat (Z.log2 n)) n EmptyString) as [|c r] eqn:E;
      [exact Hi|].
    cbn [all_chars] in Hc. apply andb_true_iff in Hc. destruct Hc as [Hc _].
    destruct (int_char_plain c Hc) as (_ & _ & Hplus).
    destruct (decimal_head (Z.to_nat (Z.log2 n)) n EmptyString Hpos)
      as (k & r' & Hk & E').
    rewrite E in E'. injection E' as -> ->.
    clear - Hi Hk. revert Hi.
    assert (Ek : k = 0 \/ k = 1 \/ k = 2 \/ k = 3 \/ k = 4 \/ k = 5 \/ k = 6
              \/ k = 7 \/ k = 8 \/ k = 9) by lia.
    repeat (destruct Ek as [->|Ek]; [exact (fun H => H)|]). subst k.
    exact (fun H => H).
Qed.

Lemma rstrip_kept (c : ascii) (a b : string) :
  b <> EmptyString -> Py.rstrip c b = b ->
  Py.rstrip c (a ++ b)%string = (a ++ b)%string.
Proof.
  intros Hne Hb. induction a as [|x a IH]; cbn [String.append Py.rstrip]; [exact Hb|].
  rewrite IH. destruct (a ++ b)%string eqn:E; [|reflexivity].
  destruct a; cbn in E; [contradiction|discriminate].
Qed.

Lemma split_at (c : ascii) (a b : string) :
  all_chars (fun x => negb (Ascii.eqb x c)) a = true ->
  Py.split c (a ++ String c b)%string = a :: Py.split c b.
Proof.
  induction a as [|x a IH]; cbn [all_chars String.append Py.split].
  - intros _. now rewrite Ascii.eqb_refl.
  - rewrite andb_true_iff, negb_true_iff. intros [-> Ha]. now rewrite (IH Ha).
Qed.

Lemma all_chars_impl (p q : ascii -> bool) (s : string) :
  (forall c, p c = true -> q c = true) ->
  all_chars p s = true -> all_chars q s = true.
Proof.
  intro H. induction s as [|c s IH]; cbn [all_chars]; [reflexivity|].
  rewrite !andb_true_iff. intros [Hc Hs]. split; [now apply H|now apply IH].
Qed.

(** The parts of the path of a task that [do_POST] sees. *)
Lemma parts_of_complete_path (n : Z) :
  Py.split "/" (Py.strip "/" ("/tasks/" ++ JSON.encode_int n ++ "/complete")%string)
  = ["tasks"; JSON.encode_int n; "complete"]%string.
Proof.
  unfold Py.strip.
  change (Py.lstrip "/" ("/tasks/" ++ JSON.encode_int n ++ "/complete")%string)
    with ("tasks/" ++ JSON.encode_int n ++ "/complete")%string.
  rewrite <- (append_assoc "tasks/" (JSON.encode_int n) "/complete").
  rewrite rstrip_kept by (discriminate || reflexivity).
  rewrite append_assoc.
  change ("tasks/" ++ JSON.encode_int n ++ "/complete")%string
    with ("tasks" ++ String "/" (JSON.encode_int n ++ String "/" "complete"))%string.
  rewrite split_at by reflexivity. f_equal.
  rewrite split_at; [reflexivity|].
  apply (all_chars_impl int_char); [|apply encode_int_chars].
  intros c Hc. destruct (int_char_plain c Hc) as (_ & -> & _). reflexivity.
Qed.

(** X10. The id of a task, written in decimal as the JSON of the task has
    it and put in the path [/tasks/<id>/complete], reaches that task: the
    POST is answered 200 with an empty body and the task is done and
    saved, or was done already and nothing changes.  With the decimal of
    an integer that is the id of no task, the answer is 404. *)
Theorem complete_by_printed_id :
  (forall (ts : list Task.t) (x : Task.t) (d : disk) (rq : request),
     NoDup (map Task.id ts) -> In x ts ->
     command rq = "POST" ->
     path rq = ("/tasks/" ++ JSON.encode_int (Task.id x) ++ "/complete")%string ->
     exists before after,
       ts = before ++ x :: after
       /\ handle {| tasks := collection ts; fs := d |} rq
          = Ok (Reply (send_response 200),
                if Task.isDone x then {| tasks := collection ts; fs := d |}
                else save {| tasks := collection (before ++ Task.done x :: after);
                             fs := d |}))
  /\
   (forall (ts : list Task.t) (k : Z) (d : disk) (rq : request),
     (forall y, In y ts -> Task.id y <> k) ->
     command rq = "POST" ->
     path rq = ("/tasks/" ++ JSON.encode_int k ++ "/complete")%string ->
     handle {| tasks := collection ts; fs := d |} rq
     = Ok (Reply (send_response 404), {| tasks := collection ts; fs := d |})).
Proof.
  split.
  - intros ts x d rq Hnd Hin Hc Hp.
    destruct (first_when_distinct ts x Hnd Hin) as (before & after & -> & Hb).
    exists before, after. split; [reflexivity|].
    rewrite (handle_POST _ rq Hc).
    rewrite (do_POST_complete _ rq (JSON.encode_int (Task.id x)))
      by (rewrite Hp; apply parts_of_complete_path).
    unfold _handle_complete_task. rewrite int_encode_int.
    rewrite complete_task_on_tasks.
    destruct (find_first (Task.id x) before after x Hb eq_refl) as [-> ->].
    destruct (Task.isDone x); reflexivity.
  - intros ts k d rq Hk Hc Hp.
    rewrite (handle_POST _ rq Hc).
    rewrite (do_POST_complete _ rq (JSON.encode_int k))
      by (rewrite Hp; apply parts_of_complete_path).
    unfold _handle_complete_task. rewrite int_encode_int.
    rewrite (complete_task_absent ts d k Hk). reflexivity.
Qed.

(** ** What the scanner returns *)

Lemma fresh_dict_set (k' k : string) (v : json) (acc : list (string * json)) :
  fresh k' acc = true -> String.eqb k' k = false ->
  fresh k' (Py.dict_set k v acc) = true.
Proof.
  unfold fresh. intros Ha Hk.
  induction acc as [|[k0 v0] acc IH]; cbn [Py.dict_set existsb fst].
  - now rewrite Hk.
  - cbn [existsb fst] in Ha. rewrite negb_true_iff, orb_false_iff in Ha.
    destruct Ha as [H0 Ha].
    destruct (String.eqb k k0); cbn [existsb fst]; rewrite H0; cbn [orb].
    + now rewrite negb_true_iff.
    + apply IH. now rewrite negb_true_iff.
Qed.

Lemma distinct_dict_set (k : string) (v : json) (acc : list (string * json)) :
  distinct acc = true -> distinct (Py.dict_set k v acc) = true.
Proof.
  induction acc as [|[k0 v0] acc IH]; cbn [Py.dict_set distinct fst]; [reflexivity|].
  rewrite andb_true_iff. intros [Hf Hd].
  destruct (String.eqb k k0) eqn:E; cbn [distinct fst].
  - now rewrite Hf, Hd.
  - rewrite (IH Hd), andb_true_r. apply fresh_dict_set; [exact Hf|].
    now rewrite String.eqb_sym.
Qed.

Lemma values_dict_set (k : string) (v : json) (acc : list (string * json)) :
  forallb (fun kv => well_keyed (snd kv)) acc = true -> well_keyed v = true ->
  forallb (fun kv => well_keyed (snd kv)) (Py.dict_set k v acc) = true.
Proof.
  intros Ha Hv. induction acc as [|[k0 v0] acc IH]; cbn [Py.dict_set forallb snd].
  - now rewrite Hv.
  - cbn [forallb snd] in Ha. apply andb_true_iff in Ha. destruct Ha as [H0 Ha].
    destruct (String.eqb k k0); cbn [forallb snd].
    + now rewrite Hv, Ha.
    + now rewrite H0, (IH Ha).
Qed.

Lemma dict_of_pairs_well_keyed (ps : list (string * json)) :
  forallb (fun kv => well_keyed (snd kv)) ps = true ->
  well_keyed (JObj (JSON.dict_of_pairs ps)) = true.
Proof.
  unfold JSON.dict_of_pairs. cbn [well_keyed].
  cut (forall acc,
         distinct acc && forallb (fun kv => well_keyed (snd kv)) acc = true ->
         forallb (fun kv => well_keyed (snd kv)) ps = true ->
         let d := fold_left (fun d kv => Py.dict_set (fst kv) (snd kv) d) ps acc in
         distinct d && forallb (fun kv => well_keyed (snd kv)) d = true).
  { intros H Hps. now apply (H []). }
  induction ps as [|[k v] ps IH]; intros acc Hacc Hps; cbn [fold_left fst snd].
  - exact Hacc.
  - cbn [forallb snd] in Hps. apply andb_true_iff in Hps. destruct Hps as [Hv Hps].
    apply andb_true_iff in Hacc. destruct Hacc as [Hd Ha].
    apply IH; [|exact Hps].
    now rewrite distinct_dict_set, values_dict_set.
Qed.

Lemma scan_atom_sound (s : string) : sound (JSON.scan_atom s).
Proof.
  unfold JSON.scan_atom.
  repeat match goal with
  | |- context [JSON.strip_prefix ?p s] =>
      destruct (JSON.strip_prefix p s); [exact I || reflexivity|]
  end.
  unfold JSON.scan_number.
  destruct (match s with
            | EmptyString => (false, s)
            | String c r => if Ascii.eqb c "-" then (true, r) else (false, s)
            end) as [negative s1].
  destruct (JSON.scan_natural s1) as [[n r]|]; [|exact I].
  destruct (JSON.float_tail r); [exact I|reflexivity].
Qed.

Section Sound.

Variable value : string -> JSON.scanned json.
Hypothesis value_sound : forall s, sound (value s).

Lemma scan_items_sound (fuel : nat) :
  forall s,
    match JSON.scan_items fuel value s with
    | JSON.Scanned l _ => forallb well_keyed l = true
    | _ => True
    end.
Proof.
  induction fuel as [|f IH]; intro s; [exact I|]. cbn [JSON.scan_items].
  pose proof (value_sound s) as Hv.
  destruct (value s) as [v rest| | |]; try exact I. cbn [sound] in Hv.
  destruct (JSON.skip_ws rest) as [|c r]; [exact I|].
  destruct (Ascii.eqb c "]"); [cbn [forallb]; now rewrite Hv|].
  destruct (Ascii.eqb c ","); [|exact I].
  specialize (IH (JSON.skip_ws r)).
  destruct (JSON.scan_items f value (JSON.skip_ws r)); cbn [JSON.smap]; try exact I.
  cbn [forallb]. now rewrite Hv, IH.
Qed.

Lemma scan_members_sound (fuel : nat) :
  forall s,
    match JSON.scan_members fuel value s with
    | JSON.Scanned l _ => forallb (fun kv => well_keyed (snd kv)) l = true
    | _ => True
    end.
Proof.
  induction fuel as [|f IH]; intro s; [exact I|]. cbn [JSON.scan_members].
  destruct s as [|q r]; [exact I|].
  destruct (Ascii.eqb q JSON.quote); [|exact I].
  destruct (JSON.scanstring (S (String.length r)) r) as [key rest| | |]; try exact I.
  destruct (JSON.skip_ws rest) as [|c r1]; [exact I|].
  destruct (Ascii.eqb c ":"); [|exact I].
  pose proof (value_sound (JSON.skip_ws r1)) as Hv.
  destruct (value (JSON.skip_ws r1)) as [v rest2| | |]; try exact I. cbn [sound] in Hv.
  destruct (JSON.skip_ws rest2) as [|c2 r2]; [exact I|].
  destruct (Ascii.eqb c2 "}"); [cbn [forallb snd]; now rewrite Hv|].
  destruct (Ascii.eqb c2 ","); [|exact I].
  specialize (IH (JSON.skip_ws r2)).
  destruct (JSON.scan_members f value (JSON.skip_ws r2)); cbn [JSON.smap]; try exact I.
  cbn [forallb snd]. now rewrite Hv, IH.
Qed.

End Sound.

Lemma scan_once_sound (fuel : nat) : forall s, sound (JSON.scan_once fuel s).
Proof.
  induction fuel as [|f IH]; intro s; [exact I|].
  destruct s as [|c r]; [exact I|]. cbn [JSON.scan_once].
  destruct (Ascii.eqb c JSON.quote).
  { destruct (JSON.scanstring (S (String.length r)) r); exact I || reflexivity. }
  destruct (Ascii.eqb c "{").
  { destruct (JSON.skip_ws r) as [|c' r']; [exact I|].
    destruct (Ascii.eqb c' "}"); [reflexivity|].
    pose proof (scan_members_sound (JSON.scan_once f) IH f (String c' r')) as H.
    destruct (JSON.scan_members f (JSON.scan_once f) (String c' r'));
      cbn [JSON.smap sound]; try exact I.
    now apply dict_of_pairs_well_keyed. }
  destruct (Ascii.eqb c "[").
  { destruct (JSON.skip_ws r) as [|c' r']; [exact I|].
    destruct (Ascii.eqb c' "]"); [reflexivity|].
    pose proof (scan_items_sound (JSON.scan_once f) IH f (String c' r')) as H.
    destruct (JSON.scan_items f (JSON.scan_once f) (String c' r'));
      cbn [JSON.smap sound]; try exact I.
    exact H. }
  apply scan_atom_sound.
Qed.

Lemma loads_well_keyed (text : string) (v : json) :
  JSON.loads text = JSON.Value v -> well_keyed v = true.
Proof.
  unfold JSON.loads.
  pose proof (scan_once_sound (S (String.length text)) (JSON.skip_ws text)) as H.
  destruct (JSON.scan_once _ _) as [v' rest| | |]; try discriminate.
  destruct (JSON.skip_ws rest); [|discriminate].
  intro E. injection E as <-. exact H.
Qed.

(** ** The server over any requests *)

Lemma greatest_numbers (n : nat) : greatest (map Z.of_nat (seq 1 n)) = Z.of_nat n.
Proof.
  induction n as [|n IH]; [reflexivity|].
  rewrite seq_S, map_app. cbn [map Nat.add].
  destruct n as [|n]; [reflexivity|].
  cbn [seq map greatest app] in IH |- *. rewrite fold_max_app, IH. lia.
Qed.

Lemma numbered_max (ts : list Task.t) :
  numbered ts -> max_existing ts = Z.of_nat (List.length ts).
Proof.
  unfold numbered. intro H. change (max_existing ts) with (greatest (map Task.id ts)).
  rewrite H. apply greatest_numbers.
Qed.

Lemma numbered_snoc (ts : list Task.t) (x : Task.t) :
  numbered ts -> Task.id x = max_existing ts + 1 -> numbered (ts ++ [x]).
Proof.
  intros H Hx. rewrite (numbered_max ts H) in Hx. unfold numbered in *.
  rewrite map_app, length_app, seq_app, map_app, H. cbn [List.length seq map Nat.add].
  rewrite Hx. do 2 f_equal. lia.
Qed.

Lemma numbered_mark_done (k : Z) (ts : list Task.t) :
  numbered ts -> numbered (mark_done k ts).
Proof.
  unfold numbered. destruct (mark_done_ids k ts) as [Hi _]. rewrite Hi.
  intros ->. now rewrite <- (length_map Task.id (mark_done k ts)), Hi, length_map.
Qed.

Lemma accepted_mark_done (k : Z) (ts : list Task.t) :
  Forall accepted ts -> Forall accepted (mark_done k ts).
Proof.
  induction 1 as [|x ts Hx Hts IH]; cbn [mark_done]; [constructor|].
  destruct (Task.id x =? k); constructor; assumption.
Qed.

Lemma eq_string (v : json) (s : string) : Py.eq v (JStr s) = true -> v = JStr s.
Proof.
  destruct v; cbn [Py.eq]; try discriminate.
  intro H. apply String.eqb_eq in H. now subst.
Qed.

Lemma member_in_priorities (v : json) :
  Py.member v priorities = true -> In v priorities.
Proof.
  unfold Py.member. intro H. apply existsb_exists in H.
  destruct H as (y & Hy & E).
  assert (exists s, y = JStr s) as [s ->]
    by (destruct Hy as [<-|[<-|[<-|[]]]]; eexists; reflexivity).
  now rewrite (eq_string v s E).
Qed.

Lemma well_keyed_get (data : json) (k : string) (v : json) :
  well_keyed data = true -> Py.get data k = Ok v -> well_keyed v = true.
Proof.
  destruct data as [ | | | | |members]; try discriminate.
  cbn [well_keyed Py.get]. rewrite andb_true_iff. intros [_ Hm].
  destruct (Py.dict_get k members) as [x|] eqn:E; intro H; injection H as <-.
  - exact (well_keyed_member k members x Hm E).
  - reflexivity.
Qed.

Lemma get_modelled (data : json) (k : string) : Py.get data k <> Unmodelled.
Proof.
  destruct data as [ | | | | |members]; try discriminate.
  cbn [Py.get]. destruct (Py.dict_get k members); discriminate.
Qed.

Lemma grown_refl (ts : list Task.t) : grown ts ts.
Proof. exists ts, []. split; [now rewrite app_nil_r|apply later_refl]. Qed.

Lemma later_trans (a b c : Task.t) : later a b -> later b c -> later a c.
Proof.
  unfold later. intros (H1 & H2 & H3 & H4) (G1 & G2 & G3 & G4).
  repeat split; try congruence. auto.
Qed.

Lemma Forall2_later_trans (l1 l2 l3 : list Task.t) :
  Forall2 later l1 l2 -> Forall2 later l2 l3 -> Forall2 later l1 l3.
Proof.
  intro H. revert l3. induction H as [|a b l1 l2 Hab _ IH]; intros l3 H3;
    inversion H3; subst; constructor; [eapply later_trans; eassumption|auto].
Qed.

Lemma grown_trans (ts1 ts2 ts3 : list Task.t) :
  grown ts1 ts2 -> grown ts2 ts3 -> grown ts1 ts3.
Proof.
  intros (old & new & -> & H1) (old' & new' & -> & H2).
  apply Forall2_app_inv_l in H2. destruct H2 as (o1 & o2 & Ho1 & Ho2 & ->).
  exists o1, (o2 ++ new'). split; [now rewrite app_assoc|].
  eapply Forall2_later_trans; eassumption.
Qed.

(** One request at a collection the server can hold. *)
Lemma handle_served (ts : list Task.t) (d : disk) (rq : request) :
  served ts -> in_model rq ->
  (exists e, handle {| tasks := collection ts; fs := d |} rq = Raise e)
  \/ (exists (r : reply) (ts' : list Task.t) (d' : disk),
        handle {| tasks := collection ts; fs := d |} rq
        = Ok (r, {| tasks := collection ts'; fs := d' |})
        /\ served ts' /\ grown ts ts'
        /\ ((ts' = ts /\ d' = d) \/ d' = write (JSON.dump (collection ts')) d)).
Proof.
  intros [Hn Ha] Hm. unfold handle.
  assert (Same : forall r : reply,
            exists (r0 : reply) (ts' : list Task.t) (d' : disk),
              Ok (r, {| tasks := collection ts; fs := d |})
              = Ok (r0, {| tasks := collection ts'; fs := d' |})
              /\ served ts' /\ grown ts ts'
              /\ ((ts' = ts /\ d' = d) \/ d' = write (JSON.dump (collection ts')) d)).
  { intro r. exists r, ts, d. split; [reflexivity|]. split; [now split|].
    split; [apply grown_refl|now left]. }
  destruct (String.eqb (command rq) "GET").
  { right. unfold do_GET. destruct (String.eqb (path rq) "/tasks"); apply Same. }
  destruct (String.eqb (command rq) "POST"); [|right; apply Same].
  unfold do_POST.
  destruct (list_eqb (Py.split "/" (Py.strip "/" (path rq))) ["tasks"%string]).
  { unfold _handle_create_task. destruct (rfile rq) as [|text] eqn:Eb;
      [left; now eexists|].
    destruct (JSON.loads text) as [data| |] eqn:El;
      [|right; apply Same|exfalso; exact (Hm text Eb El)].
    pose proof (loads_well_keyed text data El) as Hk.
    destruct (Py.get data "title") as [title| |] eqn:Et;
      [|left; now eexists|exfalso; exact (get_modelled _ _ Et)].
    destruct (Py.get data "priority") as [priority| |] eqn:Ep;
      [|left; now eexists|exfalso; exact (get_modelled _ _ Ep)].
    cbn [bind].
    destruct (Py.truthy title) eqn:Htt; cbn [negb orb]; [|right; apply Same].
    destruct (Py.truthy priority); cbn [negb]; [|right; apply Same].
    destruct (Py.member priority [JStr "low"; JStr "normal"; JStr "high"]) eqn:Hp;
      cbn [negb]; [|right; apply Same].
    right. rewrite create_task_on_tasks. cbn [bind fst snd]. unfold save. cbn [tasks fs].
    eexists; eexists; eexists. split; [reflexivity|]. split; [|split].
    - split; [now apply numbered_snoc|].
      apply Forall_app. split; [exact Ha|]. constructor; [|constructor].
      unfold accepted. cbn [Task.title Task.priority].
      split; [exact Htt|]. split; [now apply member_in_priorities|].
      exact (well_keyed_get data "title" title Hk Et).
    - eexists; eexists. split; [reflexivity|apply later_refl].
    - now right. }
  destruct (Nat.eqb _ 3 && _ && _); [|right; apply Same].
  unfold _handle_complete_task. destruct (Py.int _) as [k|]; [|right; apply Same].
  right. rewrite complete_task_on_tasks.
  destruct (find (has_id k) ts) as [x|]; [|apply Same].
  destruct (Task.isDone x); [apply Same|].
  cbn [bind fst snd]. unfold save. cbn [tasks fs].
  eexists; exists (mark_done k ts); eexists. split; [reflexivity|]. split; [|split].
  - split; [now apply numbered_mark_done|now apply accepted_mark_done].
  - exists (mark_done k ts), []. split; [now rewrite app_nil_r|apply later_mark_done].
  - now right.
Qed.

Lemma well_keyed_served (ts : list Task.t) :
  Forall accepted ts -> well_keyed (collection ts) = true.
Proof.
  intro H. apply well_keyed_collection.
  eapply Forall_impl; [|exact H]. intros x (_ & Hp & Hk). split; [exact Hk|].
  destruct Hp as [<-|[<-|[<-|[]]]]; reflexivity.
Qed.

(** A store that a new manager, made on its file, would hold again. *)
Lemma restarts_step (ts ts' : list Task.t) (d d' : disk) :
  Forall accepted ts' ->
  writing d = Writable -> readable d = true ->
  init d = Ok {| tasks := collection ts; fs := d |} ->
  (ts' = ts /\ d' = d) \/ d' = write (JSON.dump (collection ts')) d ->
  writing d' = Writable /\ readable d' = true
  /\ init d' = Ok {| tasks := collection ts'; fs := d' |}.
Proof.
  intros Ha Hw Hr Hi [[-> ->]| ->]; [now repeat split|].
  destruct (load_after_save (collection ts') d (well_keyed_served ts' Ha) Hw Hr)
    as (_ & _ & H).
  unfold save in H. cbn [tasks fs] in H.
  unfold write in *. rewrite Hw in *. cbn [writing readable]. now repeat split.
Qed.

Lemma serve_served (rqs : list request) :
  forall (ts : list Task.t) (d : disk),
    served ts -> Forall in_model rqs ->
    exists (replies : list (option reply)) (ts' : list Task.t) (d' : disk),
      serve {| tasks := collection ts; fs := d |} rqs
      = Ok (replies, {| tasks := collection ts'; fs := d' |})
      /\ List.length replies = List.length rqs
      /\ served ts' /\ grown ts ts'
      /\ (writing d = Writable -> readable d = true ->
          init d = Ok {| tasks := collection ts; fs := d |} ->
          init d' = Ok {| tasks := collection ts'; fs := d' |}).
Proof.
  induction rqs as [|rq rqs IH]; intros ts d Hs Hm.
  - exists [], ts, d. split; [reflexivity|]. split; [reflexivity|].
    split; [exact Hs|]. split; [apply grown_refl|auto].
  - inversion Hm as [|? ? Hrq Hrqs]; subst. cbn [serve].
    destruct (handle_served ts d rq Hs Hrq)
      as [[e ->]|(r & ts1 & d1 & -> & Hs1 & Hg1 & Hd1)].
    + destruct (IH ts d Hs Hrqs) as (replies & ts' & d' & -> & Hl & Hs' & Hg & Hi).
      cbn [bind fst snd]. exists (None :: replies), ts', d'.
      split; [reflexivity|]. split; [cbn [List.length]; now rewrite Hl|].
      split; [exact Hs'|]. split; [exact Hg|exact Hi].
    + destruct (IH ts1 d1 Hs1 Hrqs) as (replies & ts' & d' & -> & Hl & Hs' & Hg & Hi).
      cbn [bind fst snd]. exists (Some r :: replies), ts', d'.
      split; [reflexivity|]. split; [cbn [List.length]; now rewrite Hl|].
      split; [exact Hs'|]. split; [eapply grown_trans; eassumption|].
      intros Hw Hr Hi0.
      destruct (restarts_step ts ts1 d d1 (proj2 Hs1) Hw Hr Hi0 Hd1) as (Hw1 & Hr1 & Hi1).
      now apply Hi.
Qed.

(** X11. Started with tasks numbered from 1 that the handler would let
    through (none, when the file is missing, unreadable or not JSON), the
    server answers or drops every request of any sequence, and the tasks
    it ends with are again numbered 1, 2, ..., with a title that is not
    empty and one of the three priorities: the tasks it started with, some
    of them done since, and the new ones after them.  Nothing is removed
    or moved. *)
Theorem server_keeps_numbered_tasks :
  forall (d : disk) (ts : list Task.t) (rqs : list request),
    init d = Ok {| tasks := collection ts; fs := d |} ->
    served ts -> Forall in_model rqs ->
    exists (replies : list (option reply)) (ts' : list Task.t) (d' : disk),
      run d rqs = Ok (replies, {| tasks := collection ts'; fs := d' |})
      /\ List.length replies = List.length rqs
      /\ numbered ts' /\ Forall accepted ts' /\ grown ts ts'.
Proof.
  intros d ts rqs Hi Hs Hm. unfold run. rewrite Hi. cbn [bind].
  destruct (serve_served rqs ts d Hs Hm) as (replies & ts' & d' & E & Hl & [Hn Ha] & Hg & _).
  exists replies, ts', d'. now repeat split.
Qed.


(** X13. What [load] has taken from a file, [save] writes so that [load]
    takes it again: for every text that is JSON, whatever value it is the
    JSON of, the value loaded, saved and loaded is the same. *)
Theorem load_save_load :
  forall (d : disk) (text : string) (v : json),
    file d = Some (Text text) -> readable d = true -> writing d = Writable ->
    JSON.loads text = JSON.Value v ->
    init d = Ok {| tasks := v; fs := d |}
    /\ load (save {| tasks := v; fs := d |}) = Ok (save {| tasks := v; fs := d |})
    /\ tasks (save {| tasks := v; fs := d |}) = v.
Proof.
  intros d text v Hf Hr Hw Hl. split; [|split; [|reflexivity]].
  - unfold init, load. cbn [fs]. now rewrite Hf, Hr, Hl.
  - exact (proj1 (proj2 (load_after_save v d (loads_well_keyed text v Hl) Hw Hr))).
Qed.

(** ** These properties at given inputs *)

Lemma create_task_on_integer_ids_witness :
  create_task
    {| tasks := JArr [JObj [("id", JInt 5); ("note", JNull)]]; fs := blank |}
    (JStr "t") (JStr "low")
  = Ok (JObj [("id", JInt 6); ("title", JStr "t");
              ("priority", JStr "low"); ("isDone", JBool false)],
        save {| tasks := JArr [JObj [("id", JInt 5); ("note", JNull)];
                               JObj [("id", JInt 6); ("title", JStr "t");
                                     ("priority", JStr "low"); ("isDone", JBool false)]];
                fs := blank |}).
Proof.
  apply (proj1 (create_task_on_integer_ids
                  [JObj [("id", JInt 5); ("note", JNull)]] [5] blank
                  (JStr "t") (JStr "low")
                  (Forall2_cons _ _
                     (ex_intro _ [("id", JInt 5); ("note", JNull)] (conj eq_refl eq_refl))
                     (Forall2_nil _)))).
Defined.

Lemma complete_task_stops_at_first_match_witness :
  complete_task {| tasks := JArr [Task.to_json milk; JNull]; fs := blank |} 1
  = Ok (true, save {| tasks := JArr [Task.to_json (Task.done milk); JNull];
                      fs := blank |})
  /\ complete_task {| tasks := JArr [JNull; Task.to_json milk]; fs := blank |} 1
     = Raise TypeError.
Proof.
  split.
  - apply (proj1 complete_task_stops_at_first_match [] milk [JNull] blank 1);
      [intros y []|reflexivity].
  - apply (proj2 complete_task_stops_at_first_match [] JNull [Task.to_json milk]
             blank 1 TypeError); [intros y []|reflexivity].
Defined.




Lemma post_ignores_outer_slashes_witness :
  handle empty_store (POST "/tasks/" "{'title': 'Buy milk', 'priority': 'low'}")
  = handle empty_store (POST "/tasks" "{'title': 'Buy milk', 'priority': 'low'}").
Proof.
  apply (post_ignores_outer_slashes empty_store
           (POST "/tasks/" "{'title': 'Buy milk', 'priority': 'low'}") "/tasks");
    [reflexivity|right; reflexivity].
Defined.

Lemma answers_and_what_they_leave_witness :
  In 400 [200; 201; 400; 404]
  /\ (400 = 400 \/ 400 = 404 -> empty_store = empty_store).
Proof.
  destruct (answers_and_what_they_leave empty_store empty_store
              (POST "/tasks" "{'title': ''}")
              (_send_error 400 "Missing title or priority") eq_refl)
    as (H1 & H2 & _).
  split; [exact H1|exact H2].
Defined.


Lemma complete_by_printed_id_witness :
  exists before after,
    [milk] = before ++ milk :: after
    /\ handle {| tasks := collection [milk]; fs := blank |}
         (POST "/tasks/1/complete" EmptyString)
       = Ok (Reply (send_response 200),
             save {| tasks := collection (before ++ Task.done milk :: after);
                     fs := blank |}).
Proof.
  apply (proj1 complete_by_printed_id [milk] milk blank
           (POST "/tasks/1/complete" EmptyString));
    [constructor; [intros []|constructor]|left; reflexivity|reflexivity|reflexivity].
Defined.

Lemma requests_in_model :
  Forall in_model
    [POST "/tasks" "{'title': 'Buy milk', 'priority': 'low'}";
     POST "/tasks" "[]";
     POST "/tasks/1/complete" EmptyString;
     GET "/tasks"].
Proof.
  repeat constructor; intros text H; injection H as <-; discriminate.
Defined.

Lemma server_keeps_numbered_tasks_witness :
  exists (replies : list (option reply)) (ts' : list Task.t) (d' : disk),
    run blank
      [POST "/tasks" "{'title': 'Buy milk', 'priority': 'low'}";
       POST "/tasks" "[]";
       POST "/tasks/1/complete" EmptyString;
       GET "/tasks"]
    = Ok (replies, {| tasks := collection ts'; fs := d' |})
    /\ List.length replies = 4%nat
    /\ numbered ts' /\ Forall accepted ts' /\ grown [] ts'.
Proof.
  apply (server_keeps_numbered_tasks blank [] _ eq_refl
           (conj eq_refl (Forall_nil _)) requests_in_model).
Defined.


Lemma load_save_load_witness :
  let d := holding "{'any': [1, 'value']}" in
  let v := JObj [("any", JArr [JInt 1; JStr "value"])] in
  init d = Ok {| tasks := v; fs := d |}
  /\ load (save {| tasks := v; fs := d |}) = Ok (save {| tasks := v; fs := d |})
  /\ tasks (save {| tasks := v; fs := d |}) = v.
Proof.
  apply (load_save_load (holding "{'any': [1, 'value']}")
           (dq "{'any': [1, 'value']}")
           (JObj [("any", JArr [JInt 1; JStr "value"])])
           eq_refl eq_refl eq_refl eq_refl).
Defined.

(** ** Starting without a usable file *)


